(** * Visualisation helpers of [viz.py]: arrays, grid tiling, label colouring

    A shallow embedding of [array2pil], [batch_of_images_to_grid],
    [viz_segmentation_label] and [viz_overlayed_segmentation_label].

    A numpy array is a shape together with its elements in C (row-major)
    order, which is also the order numpy uses when it reshapes.  Python
    exceptions are values of [exn]; a function that may raise returns a
    [result].  The specification's error kinds name Python exceptions:
    InvalidArgument is [AssertionError], IndexOutOfRange is [IndexError]. *)

From Stdlib Require Import List ZArith Lia Bool Arith ArithRing PeanoNat QArith.
From Stdlib Require Import Permutation SpecFloat.
Import ListNotations.

Set Implicit Arguments.
Local Close Scope Q_scope.
Local Open Scope nat_scope.

(** ** Exceptions and the error monad *)

Inductive exn : Type :=
| AssertionError
| IndexError
| ValueError
| TypeError
| AxisError
| UnboundLocalError.

Inductive result (A : Type) : Type :=
| Ok (a : A)
| Err (e : exn).

Arguments Ok {A} a.
Arguments Err {A} e.

Definition bind {A B : Type} (r : result A) (k : A -> result B) : result B :=
  match r with
  | Ok a => k a
  | Err e => Err e
  end.

Declare Scope py_scope.
Delimit Scope py_scope with py.
Notation "x <- r ;; k" := (bind r (fun x => k))
  (at level 61, r at next level, right associativity) : py_scope.
Notation "r ;;; k" := (bind r (fun _ => k))
  (at level 61, right associativity) : py_scope.
Local Open Scope py_scope.

(** [assert cond] *)
Definition py_assert (cond : bool) : result unit :=
  if cond then Ok tt else Err AssertionError.

(** ** numpy arrays *)

Module Np.

Record ndarray : Type := mk_ndarray { shape : list nat; data : list Z }.

Definition size_of (sh : list nat) : nat := fold_right Nat.mul 1 sh.

Definition ndim (a : ndarray) : nat := length (shape a).

(** The invariant of every numpy array: as many elements as the shape says. *)
Definition wf (a : ndarray) : Prop := length (data a) = size_of (shape a).

(** Offset of a full index in C order. *)
Fixpoint ravel (sh idx : list nat) : nat :=
  match sh, idx with
  | _ :: sh', i :: idx' => i * size_of sh' + ravel sh' idx'
  | _, _ => 0
  end.

(** The index that sits at a given offset. *)
Fixpoint unravel (sh : list nat) (p : nat) : list nat :=
  match sh with
  | [] => []
  | _ :: sh' => p / size_of sh' :: unravel sh' (p mod size_of sh')
  end.

Fixpoint in_bounds (sh idx : list nat) : bool :=
  match sh, idx with
  | [], [] => true
  | d :: sh', i :: idx' => (i <? d) && in_bounds sh' idx'
  | _, _ => false
  end.

(** [a[i0, i1, ...]] with one non-negative index per axis. *)
Definition getitem (a : ndarray) (idx : list nat) : option Z :=
  if in_bounds (shape a) idx then nth_error (data a) (ravel (shape a) idx)
  else None.

(** [np.zeros(shape)] *)
Definition zeros (sh : list nat) : ndarray :=
  mk_ndarray sh (repeat 0%Z (size_of sh)).

(** [a[:stop]]: a 0-d array cannot be indexed; a negative stop counts from
    the end; the stop is clipped to the length of the first axis. *)
Definition slice_stop (a : ndarray) (stop : Z) : result ndarray :=
  match shape a with
  | [] => Err IndexError
  | b :: rest =>
      let len := Z.of_nat b in
      let stop' := if (stop <? 0)%Z then Z.max 0 (stop + len) else Z.min stop len in
      let n := Z.to_nat stop' in
      Ok (mk_ndarray (n :: rest) (firstn (n * size_of rest) (data a)))
  end.

(** [np.expand_dims(a, axis)]: a new axis of length one; the elements stay
    where they are. *)
Definition expand_dims (a : ndarray) (axis : nat) : result ndarray :=
  if axis <=? ndim a
  then Ok (mk_ndarray (firstn axis (shape a) ++ 1 :: skipn axis (shape a)) (data a))
  else Err AxisError.

(** [np.pad(a, [(0, gap), (0,0), (0,0), (0,0)], mode="constant",
    constant_values=0)]: four pairs fit an array of four axes only; [gap]
    zero-filled entries are appended along the first axis. *)
Definition pad_end0 (a : ndarray) (gap : Z) : result ndarray :=
  if (gap <? 0)%Z then Err ValueError
  else
    match shape a with
    | [b; h; w; c] =>
        let g := Z.to_nat gap in
        Ok (mk_ndarray [b + g; h; w; c] (data a ++ repeat 0%Z (g * size_of [h; w; c])))
    | _ => Err ValueError
    end.

(** [a.reshape(d0, d1, ...)] with explicit dimensions: the element count
    must be kept, the C-order sequence of elements is unchanged. *)
Definition reshape (a : ndarray) (dims : list Z) : result ndarray :=
  let sh := map Z.to_nat dims in
  if forallb (fun d => (0 <=? d)%Z) dims && (size_of sh =? length (data a))
  then Ok (mk_ndarray sh (data a))
  else Err ValueError.

Definition swap_nth {A : Type} (i j : nat) (d : A) (l : list A) : list A :=
  map (fun k => nth (if k =? i then j else if k =? j then i else k) l d)
      (seq 0 (length l)).

(** [a.swapaxes(i, j)]: element [idx] of the result is element [idx] with
    positions [i] and [j] exchanged of [a].  The result is listed in the C
    order of its own shape, which is what a later [reshape] reads. *)
Definition swapaxes (a : ndarray) (i j : nat) : result ndarray :=
  if (i <? ndim a) && (j <? ndim a)
  then
    let sh' := swap_nth i j 0 (shape a) in
    Ok (mk_ndarray sh'
          (map (fun p => nth (ravel (shape a) (swap_nth i j 0 (unravel sh' p))) (data a) 0%Z)
               (seq 0 (size_of sh'))))
  else Err AxisError.

(** [a.squeeze(axis=k)]: the axis must have length one. *)
Definition squeeze_axis (a : ndarray) (axis : nat) : result ndarray :=
  match nth_error (shape a) axis with
  | None => Err AxisError
  | Some d =>
      if d =? 1
      then Ok (mk_ndarray (firstn axis (shape a) ++ skipn (S axis) (shape a)) (data a))
      else Err ValueError
  end.

(** [a.squeeze()]: every axis of length one goes. *)
Definition squeeze (a : ndarray) : ndarray :=
  mk_ndarray (filter (fun d => negb (d =? 1)) (shape a)) (data a).

Fixpoint shape_eqb (s1 s2 : list nat) : bool :=
  match s1, s2 with
  | [], [] => true
  | a :: s1', b :: s2' => (a =? b) && shape_eqb s1' s2'
  | _, _ => false
  end.

(** [n, h, w, c = a.shape] *)
Definition unpack4 (sh : list nat) : result (nat * nat * nat * nat) :=
  match sh with
  | [n; h; w; c] => Ok (n, h, w, c)
  | _ => Err ValueError
  end.

End Np.

Import Np.

(** ** The grid tiler *)

Definition batch_of_images_to_grid (imgs : ndarray) (rows cols : Z) : result ndarray :=
  py_assert ((0 <? rows)%Z && (0 <? cols)%Z) ;;;
  let n_cells := (rows * cols)%Z in
  imgs <- slice_stop imgs n_cells ;;
  let n_dims := ndim imgs in
  py_assert ((n_dims =? 3) || (n_dims =? 4)) ;;;
  imgs <- (if n_dims =? 3 then expand_dims imgs 3 else Ok imgs) ;;
  dims <- unpack4 (shape imgs) ;;
  let '(n_batch, img_height, img_width, n_channels) := dims in
  let n_gap := (n_cells - Z.of_nat n_batch)%Z in
  imgs <- pad_end0 imgs n_gap ;;
  grid <- reshape imgs [rows; cols; Z.of_nat img_height; Z.of_nat img_width;
                        Z.of_nat n_channels] ;;
  grid <- swapaxes grid 1 2 ;;
  grid <- reshape grid [(rows * Z.of_nat img_height)%Z; (cols * Z.of_nat img_width)%Z;
                        Z.of_nat n_channels] ;;
  if n_dims =? 3 then squeeze_axis grid 2 else Ok grid.

(** Six 2x2 images, image [i] holding [10*i + 1 .. 10*i + 4]. *)
Definition six_images : ndarray :=
  mk_ndarray [6; 2; 2]
    [1; 2; 3; 4;  11; 12; 13; 14;  21; 22; 23; 24;
     31; 32; 33; 34;  41; 42; 43; 44;  51; 52; 53; 54]%Z.


(** ** C single-precision floats *)

(** A [float] of the C library is an IEEE binary32 number; every operation
    rounds to the nearest, ties to even. *)
Module F32.

Definition prec : Z := 24%Z.
Definition emax : Z := 128%Z.

Definition zero : spec_float := S754_zero false.

(** An [int] converted to [float]. *)
Definition of_Z (z : Z) : spec_float := binary_normalize prec emax z 0%Z false.

Definition one : spec_float := of_Z 1.

(** [(float)x] for a Python float (a C [double]) of value [q]: the nearest
    binary32 number.  (For a [q] that no [double] holds, such as 6/10, the
    program casts the [double] nearest to it instead, which gives the same
    [float] unless [q] lies next to the midpoint of two floats.) *)
Definition of_Q (q : Q) : spec_float :=
  let r := Qred q in
  match Qnum r with
  | Z0 => zero
  | Zpos n =>
      SFdiv prec emax (S754_finite false n 0%Z) (S754_finite false (Qden r) 0%Z)
  | Zneg n =>
      SFdiv prec emax (S754_finite true n 0%Z) (S754_finite false (Qden r) 0%Z)
  end.

Definition mul : spec_float -> spec_float -> spec_float := SFmul prec emax.
Definition add : spec_float -> spec_float -> spec_float := SFadd prec emax.
Definition eqb : spec_float -> spec_float -> bool := SFeqb.
Definition leb : spec_float -> spec_float -> bool := SFleb.

(** A cast to an integer type drops the fraction. *)
Definition to_Z (x : spec_float) : Z :=
  match x with
  | S754_finite s m e =>
      let a := match e with
               | Zneg p => Z.shiftr (Zpos m) (Zpos p)
               | _ => Z.shiftl (Zpos m) e
               end in
      if s then Z.opp a else a
  | _ => 0%Z
  end.

End F32.

(** ** PIL images *)

Module PIL.

Inductive pil_mode : Type := L | LA | RGB | RGBA.

Definition bands (m : pil_mode) : nat :=
  match m with L => 1 | LA => 2 | RGB => 3 | RGBA => 4 end.

Definition mode_eqb (m1 m2 : pil_mode) : bool := bands m1 =? bands m2.

(** An 8-bit image: its bytes row after row, the bands of a pixel next to
    each other. *)
Record image : Type :=
  mk_image { mode : pil_mode; width : nat; height : nat; pixels : list Z }.

(** [im.getpixel((x, y))], as the list of the pixel's bands. *)
Definition getpixel (im : image) (x y : nat) : option (list Z) :=
  if (x <? width im) && (y <? height im)
  then Some (firstn (bands (mode im))
               (skipn (bands (mode im) * (y * width im + x)) (pixels im)))
  else None.

(** The entries of [_fromarray_typemap] for unsigned bytes, keyed by
    [shape[2:]]. *)
Definition typemap (tail : list nat) : result pil_mode :=
  match tail with
  | [] => Ok L
  | [2] => Ok LA
  | [3] => Ok RGB
  | [4] => Ok RGBA
  | _ => Err TypeError
  end.

(** [t[i]] on a tuple *)
Definition tuple_get (t : list nat) (i : nat) : result nat :=
  match nth_error t i with
  | Some v => Ok v
  | None => Err IndexError
  end.

(** [PIL.Image.fromarray(obj, mode)] on an array of unsigned bytes: the
    trailing shape is looked up in the typemap first, also when a mode is
    given; the given mode, or else the mode found, is checked against the
    rank; the size is [(shape[1], shape[0])], or [(1, shape[0])] for an
    array of one axis; and the raw decoder wants a byte per band and pixel.
    (An array that holds more bytes than the image takes, such as one of
    four channels given the mode RGB, is outside the statements below and
    is refused here.) *)
Definition fromarray (obj : ndarray) (mode : option pil_mode) : result image :=
  let sh := shape obj in
  typemode <- typemap (skipn 2 sh) ;;
  let m := match mode with
           | None => typemode
           | Some m => m
           end in
  let ndmax := match m with L => 2 | RGB => 3 | _ => 4 end in
  if ndmax <? ndim obj then Err ValueError
  else
    w <- (if ndim obj =? 1 then Ok 1 else tuple_get sh 1) ;;
    h <- tuple_get sh 0 ;;
    if length (data obj) =? w * h * bands m
    then Ok (mk_image m w h (data obj))
    else Err ValueError.

Fixpoint rgb_of_la (l : list Z) : list Z :=
  match l with
  | v :: _ :: t => v :: v :: v :: rgb_of_la t
  | _ => []
  end.

Fixpoint rgb_of_rgba (l : list Z) : list Z :=
  match l with
  | r :: g :: b :: _ :: t => r :: g :: b :: rgb_of_rgba t
  | _ => []
  end.

(** [im.convert("RGB")] *)
Definition convert_RGB (im : image) : image :=
  mk_image RGB (width im) (height im)
    match mode im with
    | L => flat_map (fun v => [v; v; v]) (pixels im)
    | LA => rgb_of_la (pixels im)
    | RGB => pixels im
    | RGBA => rgb_of_rgba (pixels im)
    end.

(** The inner statement of the library's blend loop, on one byte of each
    image, for the [float alpha] the C function receives:
    [(UINT8)(in1 + alpha * (in2 - in1))] with the product and the sum in
    single precision; outside [0 <= alpha <= 1] the value is clipped to a
    byte before the cast. *)
Definition blend_byte32 (alpha : spec_float) (in1 in2 : Z) : Z :=
  let temp := F32.add (F32.of_Z in1) (F32.mul alpha (F32.of_Z (in2 - in1))) in
  if F32.leb F32.zero alpha && F32.leb alpha F32.one
  then (F32.to_Z temp mod 256)%Z
  else if F32.leb temp F32.zero then 0%Z
  else if F32.leb (F32.of_Z 255) temp then 255%Z
  else (F32.to_Z temp mod 256)%Z.

(** The same for the Python float [alpha], which the binding casts to
    [float]. *)
Definition blend_byte (alpha : Q) (in1 in2 : Z) : Z :=
  blend_byte32 (F32.of_Q alpha) in1 in2.

Fixpoint map2 {A B C : Type} (f : A -> B -> C) (l1 : list A) (l2 : list B) : list C :=
  match l1, l2 with
  | a :: l1', b :: l2' => f a b :: map2 f l1' l2'
  | _, _ => []
  end.

(** [PIL.ImageChops.blend(im1, im2, alpha)]: images of different mode or
    size do not match; an [alpha] that is 0 or 1 as a [float] copies an
    operand. *)
Definition blend (im1 im2 : image) (alpha : Q) : result image :=
  if negb (mode_eqb (mode im1) (mode im2) && (width im1 =? width im2)
           && (height im1 =? height im2))
  then Err ValueError
  else if F32.eqb (F32.of_Q alpha) F32.zero then Ok im1
  else if F32.eqb (F32.of_Q alpha) F32.one then Ok im2
  else Ok (mk_image (mode im1) (width im1) (height im1)
             (map2 (blend_byte alpha) (pixels im1) (pixels im2))).

End PIL.

Import PIL.

(** ** The image encoder *)

(** Reading a local variable that no branch has assigned. *)
Definition load_local {A : Type} (v : option A) : result A :=
  match v with
  | Some a => Ok a
  | None => Err UnboundLocalError
  end.

(** The [if/elif/elif] of [array2pil]: the locals [mode] and [x] after it. *)
Definition array2pil_branches (x : ndarray) : option pil_mode * ndarray :=
  if ndim x =? 2 then (Some L, x)
  else if (ndim x =? 3) && (nth 2 (shape x) 0 =? 1) then (Some L, squeeze x)
  else if ndim x =? 3 then (Some RGB, x)
  else (None, x).

Definition array2pil (x : ndarray) : result image :=
  let '(mode, x) := array2pil_branches x in
  mode <- load_local mode ;;
  fromarray x (Some mode).

(** ** The label colorizer *)

Definition rgb : Type := (Z * Z * Z)%type.

Definition default_colormap : list rgb :=
  [(0, 0, 0); (255, 79, 64); (115, 173, 33); (48, 126, 199)]%Z.

(** [l[i]] on a Python list: a negative index counts from the end. *)
Definition list_getitem {A : Type} (l : list A) (i : Z) : result A :=
  let n := Z.of_nat (length l) in
  let j := if (i <? 0)%Z then (i + n)%Z else i in
  if (j <? 0)%Z || (n <=? j)%Z then Err IndexError
  else
    match nth_error l (Z.to_nat j) with
    | Some v => Ok v
    | None => Err IndexError
    end.

Fixpoint insert_unique (v : Z) (l : list Z) : list Z :=
  match l with
  | [] => [v]
  | x :: t =>
      if (v <? x)%Z then v :: l
      else if (v =? x)%Z then l
      else x :: insert_unique v t
  end.

(** [np.unique(a)]: the distinct values of [a], ascending. *)
Definition unique (a : ndarray) : list Z := fold_right insert_unique [] (data a).

(** A value as an [np.uint8]: arithmetic on such arrays wraps around.  A
    Python int stored into one is kept as it is when it fits a byte; one
    that does not fit wraps in older releases of the library and is
    refused with [OverflowError] in newer ones, so the statements about
    stored colours take a colormap of bytes ([valid_colormap] below). *)
Definition uint8 (v : Z) : Z := (v mod 256)%Z.

Fixpoint paint (mask : list bool) (c : rgb) (px : list Z) : list Z :=
  match mask, px with
  | m :: mask', r :: g :: b :: px' =>
      let '(cr, cg, cb) := c in
      (if m then [uint8 cr; uint8 cg; uint8 cb] else [r; g; b]) ++ paint mask' c px'
  | _, _ => px
  end.

(** The same where the mask selects single elements: they take the values
    in order. *)
Fixpoint paint_flat (mask : list bool) (vals px : list Z) : list Z :=
  match mask, px with
  | m :: mask', p :: px' =>
      if m
      then match vals with
           | v :: vals' => uint8 v :: paint_flat mask' vals' px'
           | [] => p :: paint_flat mask' [] px'
           end
      else p :: paint_flat mask' vals px'
  | _, _ => px
  end.

(** [viz[label == uid] = c] for [viz] of shape [(h, w, 3)] and a colour
    triple [c]: the boolean mask has to fit the leading axes of [viz].  A
    two-dimensional mask selects pixels, and the triple is written to each
    of them.  A mask of the shape of [viz] selects single elements, and the
    three values fit them only when three are selected. *)
Definition setitem_mask (viz label : ndarray) (uid : Z) (c : rgb) : result ndarray :=
  let mask := map (Z.eqb uid) (data label) in
  if (ndim label =? 2) && shape_eqb (shape label ++ [3]) (shape viz)
  then Ok (mk_ndarray (shape viz) (paint mask c (data viz)))
  else if shape_eqb (shape label) (shape viz)
  then
    if length (filter (fun m : bool => m) mask) =? 3
    then let '(r, g, b) := c in
         Ok (mk_ndarray (shape viz) (paint_flat mask [r; g; b] (data viz)))
    else Err ValueError
  else Err IndexError.

(** [for x in xs: body], the body updating a value or raising. *)
Fixpoint for_each {A S : Type} (xs : list A) (body : S -> A -> result S) (s : S)
  : result S :=
  match xs with
  | [] => Ok s
  | x :: xs' => s' <- body s x ;; for_each xs' body s'
  end.

(** [saveto] is left at its default [None]: nothing is written to disk. *)
Definition viz_segmentation_label (label : ndarray) (colormap : option (list rgb))
  : result image :=
  let colormap := match colormap with
                  | None => default_colormap
                  | Some c => c
                  end in
  h <- tuple_get (shape label) 0 ;;
  w <- tuple_get (shape label) 1 ;;
  let label_viz := zeros [h; w; 3] in
  let uids := unique label in
  label_viz <- for_each uids
                 (fun viz uid =>
                    c <- list_getitem colormap uid ;;
                    setitem_mask viz label uid c)
                 label_viz ;;
  fromarray label_viz None.

(** ** The overlay compositor *)

Definition overlay_colormap : list rgb :=
  [(127, 127, 127); (255, 0, 0); (0, 255, 0); (0, 0, 255)]%Z.

Definition viz_overlayed_segmentation_label (img label : ndarray)
    (colormap : option (list rgb)) (alpha : Q) : result image :=
  img <- array2pil img ;;
  let img := convert_RGB img in
  let colormap := match colormap with
                  | None => overlay_colormap
                  | Some c => c
                  end in
  label <- viz_segmentation_label label (Some colormap) ;;
  blend img label alpha.

(** ** Closed form of the tiler *)

(** The elements of the batch once it is cut to at most [n_cells] images of
    [per_image] elements each and filled up with zero images. *)
Definition padded_batch (n_cells per_image b : nat) (d : list Z) : list Z :=
  let n := Nat.min n_cells b in
  firstn (n * per_image) d ++ repeat 0%Z ((n_cells - n) * per_image).

(** The elements of [x.reshape(R, C, h, w, K).swapaxes(1, 2)] in C order. *)
Definition grid_data (R C h w K : nat) (d : list Z) : list Z :=
  map (fun p => nth (ravel [R; C; h; w; K] (swap_nth 1 2 0 (unravel [R; h; C; w; K] p)))
                  d 0%Z)
      (seq 0 (size_of [R; h; C; w; K])).

(** ** Vocabulary of the colour statements *)

(** A colour component that fits an unsigned byte. *)
Definition byte_ok (v : Z) : Prop := (0 <= v <= 255)%Z.

Definition valid_rgb (c : rgb) : Prop :=
  let '(r, g, b) := c in byte_ok r /\ byte_ok g /\ byte_ok b.

(** A colormap as the data model has it: RGB triples of bytes. *)
Definition valid_colormap (cm : list rgb) : Prop := Forall valid_rgb cm.

(** The colormap a call uses. *)
Definition colormap_or (default : list rgb) (colormap : option (list rgb)) : list rgb :=
  match colormap with
  | None => default
  | Some c => c
  end.

(** The labels a Python list of length [n] accepts as an index. *)
Definition index_ok (n v : Z) : Prop := (- n <= v < n)%Z.

(** What [colormap[v]] stores into the byte image. *)
Definition stored_colour (cm : list rgb) (v : Z) : list Z :=
  match list_getitem cm v with
  | Ok (r, g, b) => [uint8 r; uint8 g; uint8 b]
  | Err _ => []
  end.

(** The three bytes of pixel number [p] of an RGB byte sequence. *)
Definition px3 (p : nat) (l : list Z) : list Z := firstn 3 (skipn (3 * p) l).




(** ** The viewers *)

(** [x * 255] on an array of [np.uint8]. *)
Definition mul_uint8 (x : ndarray) (k : Z) : ndarray :=
  mk_ndarray (shape x) (map (fun v => uint8 (v * k)) (data x)).

(** [show_template_image] and [show_img] hand an image to a viewer with
    [.show()] and return nothing; the value here is the image handed over. *)
Definition show_template_image (x : ndarray) : result image :=
  fromarray (mul_uint8 x 255) (Some L).

Definition show_img (x : ndarray) : result image := array2pil x.

(** The offset in the padded batch of the element that the tiler puts at
    offset [p] of the grid. *)
Definition grid_source (R C h w K p : nat) : nat :=
  ravel [R; C; h; w; K] (swap_nth 1 2 0 (unravel [R; h; C; w; K] p)).

(** * Properties *)

Example six_images_grid :
  batch_of_images_to_grid six_images 2 3 =
  Ok (mk_ndarray [4; 6]
        [ 1;  2; 11; 12; 21; 22;
          3;  4; 13; 14; 23; 24;
         31; 32; 41; 42; 51; 52;
         33; 34; 43; 44; 53; 54]%Z).
Proof. reflexivity. Qed.

Example colorize_01 :
  viz_segmentation_label (mk_ndarray [2; 2] [0; 1; 1; 0]%Z) None =
  Ok (mk_image RGB 2 2 [0; 0; 0; 255; 79; 64; 255; 79; 64; 0; 0; 0]%Z).
Proof. reflexivity. Qed.

Example colorize_5 :
  viz_segmentation_label (mk_ndarray [1; 2] [0; 5]%Z) None = Err IndexError.
Proof. reflexivity. Qed.

Example overlay_half :
  viz_overlayed_segmentation_label (mk_ndarray [1; 1] [0]%Z)
    (mk_ndarray [1; 1] [1]%Z) None (1 # 2) =
  Ok (mk_image RGB 1 1 [127; 0; 0]%Z).
Proof. vm_compute. reflexivity. Qed.

(** ** Offsets and indices *)

Section Offsets.

Lemma size_of_cons (d : nat) (sh : list nat) : size_of (d :: sh) = d * size_of sh.
Proof. reflexivity. Qed.

Lemma ravel_lt (sh idx : list nat) :
  in_bounds sh idx = true -> ravel sh idx < size_of sh.
Proof.
  revert idx; induction sh as [|d sh IH]; intros [|i idx] Hb; simpl in *;
    try discriminate; try lia.
  apply andb_prop in Hb as [Hi Hrest].
  apply Nat.ltb_lt in Hi. specialize (IH _ Hrest).
  fold (size_of sh). nia.
Qed.

Lemma unravel_ravel (sh idx : list nat) :
  in_bounds sh idx = true -> unravel sh (ravel sh idx) = idx.
Proof.
  revert idx; induction sh as [|d sh IH]; intros [|i idx] Hb; simpl in *;
    try discriminate; try reflexivity.
  apply andb_prop in Hb as [_ Hrest].
  pose proof (ravel_lt _ _ Hrest) as Hlt.
  fold (size_of sh).
  assert (Hq : (i * size_of sh + ravel sh idx) / size_of sh = i).
  { symmetry; apply Nat.div_unique with (r := ravel sh idx); [exact Hlt | lia]. }
  assert (Hr : (i * size_of sh + ravel sh idx) mod size_of sh = ravel sh idx).
  { symmetry; apply Nat.mod_unique with (q := i); [exact Hlt | lia]. }
  rewrite Hq, Hr, IH by exact Hrest. reflexivity.
Qed.

Lemma nth_map_seq {A : Type} (f : nat -> A) (n p : nat) (d : A) :
  p < n -> nth p (map f (seq 0 n)) d = f p.
Proof.
  intros Hp.
  rewrite (nth_indep _ d (f 0)) by (rewrite length_map, length_seq; exact Hp).
  rewrite map_nth, seq_nth by exact Hp. reflexivity.
Qed.

Lemma nth_repeat_zero (p m : nat) : nth p (repeat 0%Z m) 0%Z = 0%Z.
Proof.
  revert p; induction m as [|m IH]; intros [|p]; simpl; auto.
Qed.

Lemma nth_pad_zero (l : list Z) (m p : nat) :
  length l <= p -> nth p (l ++ repeat 0%Z m) 0%Z = 0%Z.
Proof.
  intros Hp. rewrite app_nth2 by exact Hp. apply nth_repeat_zero.
Qed.

Lemma map_const_zero {A : Type} (l : list A) :
  map (fun _ => 0%Z) l = repeat 0%Z (length l).
Proof. induction l; simpl; congruence. Qed.

End Offsets.

(** ** The numpy steps of the tiler, one by one *)

Section NumpySteps.

Lemma slice_stop_ok (b : nat) (rest : list nat) (d : list Z) (n : nat) :
  slice_stop (mk_ndarray (b :: rest) d) (Z.of_nat n) =
  Ok (mk_ndarray (Nat.min n b :: rest) (firstn (Nat.min n b * size_of rest) d)).
Proof.
  unfold slice_stop; cbn [shape data].
  replace (Z.of_nat n <? 0)%Z with false by (symmetry; apply Z.ltb_ge; lia).
  replace (Z.to_nat (Z.min (Z.of_nat n) (Z.of_nat b))) with (Nat.min n b) by lia.
  reflexivity.
Qed.

Lemma pad_end0_ok (b h w c : nat) (d : list Z) (g : nat) :
  pad_end0 (mk_ndarray [b; h; w; c] d) (Z.of_nat g) =
  Ok (mk_ndarray [b + g; h; w; c] (d ++ repeat 0%Z (g * size_of [h; w; c]))).
Proof.
  unfold pad_end0; cbn [shape data].
  replace (Z.of_nat g <? 0)%Z with false by (symmetry; apply Z.ltb_ge; lia).
  rewrite Nat2Z.id. reflexivity.
Qed.

Lemma reshape_ok (a : ndarray) (sh : list nat) :
  size_of sh = length (data a) ->
  reshape a (map Z.of_nat sh) = Ok (mk_ndarray sh (data a)).
Proof.
  intros Hsize. unfold reshape.
  assert (Hid : map Z.to_nat (map Z.of_nat sh) = sh).
  { rewrite map_map. rewrite <- (map_id sh) at 2.
    apply map_ext; intros; apply Nat2Z.id. }
  assert (Hpos : forallb (fun d => (0 <=? d)%Z) (map Z.of_nat sh) = true).
  { apply forallb_forall; intros z Hz. apply in_map_iff in Hz as [n [<- _]].
    apply Z.leb_le; lia. }
  rewrite Hid, Hpos, Hsize, Nat.eqb_refl. reflexivity.
Qed.

Lemma swapaxes_12 (R C h w K : nat) (d : list Z) :
  swapaxes (mk_ndarray [R; C; h; w; K] d) 1 2 =
  Ok (mk_ndarray [R; h; C; w; K] (grid_data R C h w K d)).
Proof. reflexivity. Qed.

Lemma grid_data_length (R C h w K : nat) (d : list Z) :
  length (grid_data R C h w K d) = size_of [R; h; C; w; K].
Proof. unfold grid_data. rewrite length_map, length_seq. reflexivity. Qed.

End NumpySteps.

(** ** The tiler in closed form *)

Section Tiler.

Variables (imgs : ndarray) (R C b h w : nat) (cs : list nat).
Hypothesis Hwf : wf imgs.
Hypothesis Hshape : shape imgs = b :: h :: w :: cs.
Hypothesis Hcs : length cs <= 1.
Hypothesis HR : 0 < R.
Hypothesis HC : 0 < C.

Lemma padded_batch_length :
  length (padded_batch (R * C) (h * w * size_of cs) b (data imgs))
  = R * C * (h * w * size_of cs).
Proof.
  unfold padded_batch. rewrite length_app, repeat_length, length_firstn.
  red in Hwf. rewrite Hwf, Hshape. cbn [size_of fold_right].
  fold (size_of cs). nia.
Qed.

(** After the slice, the optional new axis and the padding, the batch has
    [R * C] images and a channel axis. *)
Lemma tiler_closed :
  batch_of_images_to_grid imgs (Z.of_nat R) (Z.of_nat C) =
  Ok (mk_ndarray (R * h :: C * w :: cs)
        (grid_data R C h w (size_of cs)
           (padded_batch (R * C) (h * w * size_of cs) b (data imgs)))).
Proof.
  pose proof padded_batch_length as Hlen.
  unfold batch_of_images_to_grid.
  replace ((0 <? Z.of_nat R)%Z && (0 <? Z.of_nat C)%Z) with true
    by (symmetry; apply andb_true_intro; split; apply Z.ltb_lt; lia).
  cbn [py_assert bind].
  destruct imgs as [sh d]; cbn [shape data] in *; subst sh.
  rewrite <- Nat2Z.inj_mul, slice_stop_ok.
  set (n := Nat.min (R * C) b) in *.
  assert (Hgap : (Z.of_nat (R * C) - Z.of_nat n)%Z = Z.of_nat (R * C - n)) by lia.
  assert (Hsum : n + (R * C - n) = R * C) by lia.
  cbn [bind ndim shape data].
  destruct cs as [|c [|c' cs']]; [| |simpl in Hcs; lia].
  - cbn [length Nat.eqb orb py_assert bind expand_dims ndim shape data Nat.leb
         firstn skipn app unpack4].
    rewrite Hgap, pad_end0_ok, Hsum. cbn [bind].
    change [Z.of_nat R; Z.of_nat C; Z.of_nat h; Z.of_nat w; Z.of_nat 1]
      with (map Z.of_nat [R; C; h; w; 1]).
    unfold padded_batch in Hlen. fold n in Hlen.
    replace (size_of [h; w; 1]) with (h * w * size_of []) by (cbn; lia).
    replace (size_of [h; w]) with (h * w * size_of []) by (cbn; lia).
    rewrite reshape_ok by (cbn [data]; rewrite Hlen; cbn; lia).
    cbn [bind data]. rewrite swapaxes_12. cbn [bind].
    rewrite <- !Nat2Z.inj_mul.
    change [Z.of_nat (R * h); Z.of_nat (C * w); Z.of_nat 1]
      with (map Z.of_nat [R * h; C * w; 1]).
    rewrite reshape_ok by (cbn [data]; rewrite grid_data_length; cbn; lia).
    reflexivity.
  - cbn [length Nat.eqb orb py_assert bind expand_dims ndim shape data Nat.leb
         firstn skipn app unpack4].
    rewrite Hgap, pad_end0_ok, Hsum. cbn [bind].
    change [Z.of_nat R; Z.of_nat C; Z.of_nat h; Z.of_nat w; Z.of_nat c]
      with (map Z.of_nat [R; C; h; w; c]).
    unfold padded_batch in Hlen. fold n in Hlen.
    replace (size_of [h; w; c]) with (h * w * size_of [c]) by (cbn; lia).
    rewrite reshape_ok by (cbn [data]; rewrite Hlen; cbn; lia).
    cbn [bind data]. rewrite swapaxes_12. cbn [bind].
    rewrite <- !Nat2Z.inj_mul.
    change [Z.of_nat (R * h); Z.of_nat (C * w); Z.of_nat c]
      with (map Z.of_nat [R * h; C * w; c]).
    rewrite reshape_ok by (cbn [data]; rewrite grid_data_length; cbn; lia).
    cbn [bind data size_of fold_right]. rewrite Nat.mul_1_r. reflexivity.
Qed.

End Tiler.

(** ** Where the tiler puts each element *)

Section Cells.

Lemma in_bounds_cons (d : nat) (sh : list nat) (i : nat) (idx : list nat) :
  i < d -> in_bounds sh idx = true -> in_bounds (d :: sh) (i :: idx) = true.
Proof.
  intros Hi Hrest. cbn [in_bounds]. rewrite Hrest.
  apply Nat.ltb_lt in Hi. rewrite Hi. reflexivity.
Qed.

(** Element [(r*h + y, cc*w + x, k)] of the grid is element [(y, x, k)] of
    image [r*C + cc] of the padded batch. *)
Lemma grid_data_nth (R C h w K : nat) (d : list Z) (r cc y x k : nat) :
  r < R -> cc < C -> y < h -> x < w -> k < K ->
  nth (ravel [R * h; C * w; K] [r * h + y; cc * w + x; k]) (grid_data R C h w K d) 0%Z
  = nth (ravel [R * C; h; w; K] [r * C + cc; y; x; k]) d 0%Z.
Proof.
  intros Hr Hcc Hy Hx Hk.
  assert (Hb : in_bounds [R; h; C; w; K] [r; y; cc; x; k] = true)
    by (repeat (apply in_bounds_cons; [assumption|]); reflexivity).
  replace (ravel [R * h; C * w; K] [r * h + y; cc * w + x; k])
    with (ravel [R; h; C; w; K] [r; y; cc; x; k])
    by (cbn [ravel size_of fold_right]; ring).
  unfold grid_data.
  rewrite nth_map_seq by (apply ravel_lt; exact Hb).
  rewrite unravel_ravel by exact Hb.
  f_equal. cbn. ring.
Qed.

Variables (R C h w : nat) (cs : list nat).

Lemma grid_getitem (d : list Z) (r cc y x : nat) (ks : list nat) :
  r < R -> cc < C -> y < h -> x < w -> in_bounds cs ks = true ->
  getitem (mk_ndarray (R * h :: C * w :: cs) (grid_data R C h w (size_of cs) d))
          (r * h + y :: cc * w + x :: ks)
  = Some (nth (ravel (R * C :: h :: w :: cs) (r * C + cc :: y :: x :: ks)) d 0%Z).
Proof.
  intros Hr Hcc Hy Hx Hks.
  pose proof (ravel_lt _ _ Hks) as Hk.
  unfold getitem; cbn [shape data].
  rewrite in_bounds_cons; [| nia | apply in_bounds_cons; [nia | exact Hks]].
  replace (ravel (R * h :: C * w :: cs) (r * h + y :: cc * w + x :: ks))
    with (ravel [R * h; C * w; size_of cs] [r * h + y; cc * w + x; ravel cs ks])
    by (cbn [ravel]; rewrite ?size_of_cons; change (size_of []) with 1; ring).
  replace (ravel (R * C :: h :: w :: cs) (r * C + cc :: y :: x :: ks))
    with (ravel [R * C; h; w; size_of cs] [r * C + cc; y; x; ravel cs ks])
    by (cbn [ravel]; rewrite ?size_of_cons; change (size_of []) with 1; ring).
  rewrite <- (@grid_data_nth R C h w (size_of cs) d r cc y x (ravel cs ks)) by assumption.
  apply nth_error_nth'.
  rewrite grid_data_length.
  replace (size_of [R; h; C; w; size_of cs]) with (size_of [R * h; C * w; size_of cs])
    by (rewrite ?size_of_cons; change (size_of []) with 1; ring).
  apply ravel_lt.
  repeat (apply in_bounds_cons; [nia|]). reflexivity.
Qed.

Lemma cell_of_index (i : nat) :
  0 < C -> i < R * C -> i / C < R /\ i mod C < C /\ i / C * C + i mod C = i.
Proof.
  intros HC Hi. split; [|split].
  - apply Nat.Div0.div_lt_upper_bound. lia.
  - apply Nat.mod_upper_bound. lia.
  - pose proof (Nat.div_mod_eq i C). lia.
Qed.

(** An image that is in the batch and in the grid keeps its elements
    through cutting and padding. *)
Lemma padded_batch_image (imgs : ndarray) (b i y x : nat) (ks : list nat) :
  wf imgs -> shape imgs = b :: h :: w :: cs ->
  i < b -> i < R * C -> y < h -> x < w -> in_bounds cs ks = true ->
  Some (nth (ravel (R * C :: h :: w :: cs) (i :: y :: x :: ks))
          (padded_batch (R * C) (h * w * size_of cs) b (data imgs)) 0%Z)
  = getitem imgs (i :: y :: x :: ks).
Proof.
  intros Hwf Hshape Hib Hi Hy Hx Hks.
  pose proof (ravel_lt _ _ Hks) as Hk.
  assert (Hin : in_bounds (b :: h :: w :: cs) (i :: y :: x :: ks) = true)
    by (repeat (apply in_bounds_cons; [assumption|]); exact Hks).
  pose proof (ravel_lt _ _ Hin) as Hlt.
  unfold getitem. rewrite Hshape, Hin.
  red in Hwf. rewrite Hshape in Hwf.
  replace (ravel (R * C :: h :: w :: cs) (i :: y :: x :: ks))
    with (ravel (b :: h :: w :: cs) (i :: y :: x :: ks)) by reflexivity.
  set (p := ravel (b :: h :: w :: cs) (i :: y :: x :: ks)) in *.
  assert (Hp : p < Nat.min (R * C) b * (h * w * size_of cs)).
  { assert (Hinner : ravel (h :: w :: cs) (y :: x :: ks) < size_of (h :: w :: cs))
      by (apply ravel_lt; repeat (apply in_bounds_cons; [assumption|]); exact Hks).
    subst p. cbn [ravel] in *. rewrite !size_of_cons in *.
    replace (h * w * size_of cs) with (h * (w * size_of cs)) by ring.
    assert (Hm : i + 1 <= Nat.min (R * C) b) by lia.
    revert Hinner Hm. generalize (Nat.min (R * C) b) (h * (w * size_of cs))
      (y * (w * size_of cs) + (x * size_of cs + ravel cs ks)).
    intros; nia. }
  unfold padded_batch.
  rewrite app_nth1
    by (rewrite length_firstn, Hwf; apply Nat.min_glb_lt; [exact Hp | exact Hlt]).
  rewrite nth_firstn. apply Nat.ltb_lt in Hp. rewrite Hp.
  symmetry. apply nth_error_nth'. rewrite Hwf. exact Hlt.
Qed.

(** A cell past the end of the batch holds zeros. *)
Lemma padded_batch_blank (imgs : ndarray) (b i y x : nat) (ks : list nat) :
  wf imgs -> shape imgs = b :: h :: w :: cs ->
  b <= i -> i < R * C -> y < h -> x < w -> in_bounds cs ks = true ->
  nth (ravel (R * C :: h :: w :: cs) (i :: y :: x :: ks))
      (padded_batch (R * C) (h * w * size_of cs) b (data imgs)) 0%Z = 0%Z.
Proof.
  intros Hwf Hshape Hbi Hi Hy Hx Hks.
  unfold padded_batch. apply nth_pad_zero.
  rewrite length_firstn.
  replace (Nat.min (R * C) b) with b by lia.
  etransitivity; [apply Nat.le_min_l|].
  cbn [ravel]. rewrite !size_of_cons.
  replace (h * w * size_of cs) with (h * (w * size_of cs)) by ring.
  generalize (h * (w * size_of cs))
    (y * (w * size_of cs) + (x * size_of cs + ravel cs ks)).
  intros; nia.
Qed.

End Cells.

(** ** Claims about the grid tiler *)

Example six_images_wf : wf six_images.
Proof. reflexivity. Qed.

(** C1, as amended.  For a batch of shape [(b, h, w)] or [(b, h, w, c)] and
    a grid of [R > 0] rows and [C > 0] columns with [b <= R * C], the tiler
    returns an array of shape [(R*h, C*w)], respectively [(R*h, C*w, c)]:
    the output has one axis fewer than the input (the batch axis), and a
    channel axis exactly when the input has one. *)
Theorem C1_grid_shape (imgs : ndarray) (R C b h w : nat) (cs : list nat) :
  wf imgs -> shape imgs = b :: h :: w :: cs -> length cs <= 1 ->
  0 < R -> 0 < C -> b <= R * C ->
  exists grid,
    batch_of_images_to_grid imgs (Z.of_nat R) (Z.of_nat C) = Ok grid /\
    shape grid = R * h :: C * w :: cs /\
    wf grid /\
    S (ndim grid) = ndim imgs.
Proof.
  intros Hwf Hshape Hcs HR HC _.
  eexists. split; [apply (tiler_closed Hwf Hshape Hcs HR HC)|].
  cbn [shape]. split; [reflexivity|]. split.
  - red; cbn [shape data]. rewrite grid_data_length, !size_of_cons.
    change (size_of []) with 1. ring.
  - unfold ndim. rewrite Hshape. reflexivity.
Qed.

Lemma C1_grid_shape_witness :
  exists grid,
    batch_of_images_to_grid six_images (Z.of_nat 2) (Z.of_nat 3) = Ok grid /\
    shape grid = [2 * 2; 3 * 2] /\ wf grid /\ S (ndim grid) = ndim six_images.
Proof.
  apply (@C1_grid_shape six_images 2 3 6 2 2 []);
    [reflexivity | reflexivity | simpl; lia | lia | lia | simpl; lia].
Defined.

(** C1 as it is written asks for an output of the rank of the input; six
    2x2 images of a rank-3 batch tile to a rank-2 array. *)
Lemma C1_rank_not_mirrored :
  ~ (forall grid,
       batch_of_images_to_grid six_images 2 3 = Ok grid ->
       ndim grid = ndim six_images).
Proof.
  intros H. specialize (H _ eq_refl). discriminate H.
Qed.

(** C2.  Images are laid out row-major: for every image index [i] of the
    batch with [i < R * C], the block of the output at grid cell
    [(i / C, i mod C)], that is rows [(i/C)*h ..] and columns [(i mod C)*w ..],
    holds image [i], element by element. *)
Theorem C2_row_major (imgs : ndarray) (R C b h w : nat) (cs : list nat) :
  wf imgs -> shape imgs = b :: h :: w :: cs -> length cs <= 1 ->
  0 < R -> 0 < C ->
  exists grid,
    batch_of_images_to_grid imgs (Z.of_nat R) (Z.of_nat C) = Ok grid /\
    forall i y x ks,
      i < b -> i < R * C -> y < h -> x < w -> in_bounds cs ks = true ->
      getitem grid (i / C * h + y :: i mod C * w + x :: ks)
      = getitem imgs (i :: y :: x :: ks)
      /\ getitem imgs (i :: y :: x :: ks) <> None.
Proof.
  intros Hwf Hshape Hcs HR HC.
  eexists. split; [apply (tiler_closed Hwf Hshape Hcs HR HC)|].
  intros i y x ks Hib Hi Hy Hx Hks.
  destruct (@cell_of_index R C i HC Hi) as (Hr & Hc & Hrc).
  rewrite grid_getitem by assumption. rewrite Hrc.
  rewrite <- (@padded_batch_image R C h w cs imgs b i y x ks) by assumption.
  split; [reflexivity | discriminate].
Qed.

Lemma C2_row_major_witness :
  exists grid,
    batch_of_images_to_grid six_images (Z.of_nat 2) (Z.of_nat 3) = Ok grid /\
    forall i y x ks,
      i < 6 -> i < 2 * 3 -> y < 2 -> x < 2 -> in_bounds [] ks = true ->
      getitem grid (i / 3 * 2 + y :: i mod 3 * 2 + x :: ks)
      = getitem six_images (i :: y :: x :: ks)
      /\ getitem six_images (i :: y :: x :: ks) <> None.
Proof.
  apply (@C2_row_major six_images 2 3 6 2 2 []);
    [reflexivity | reflexivity | simpl; lia | lia | lia].
Defined.

(** C3, at the input where the code departs from it: a 0-d array is
    sliced before its rank is asserted, and the slice raises [IndexError]. *)
Theorem C3_rank0_index_error :
  batch_of_images_to_grid (mk_ndarray [] [7%Z]) 1 1 = Err IndexError.
Proof. reflexivity. Qed.

(** C4.  With more images than cells the tiler succeeds, the cells hold
    the first [R * C] images in row-major order, and any batch with the
    same first [R * C] images gives the same grid. *)
Theorem C4_excess_images_dropped (imgs imgs' : ndarray) (R C b b' h w : nat)
    (cs : list nat) :
  wf imgs -> wf imgs' ->
  shape imgs = b :: h :: w :: cs -> shape imgs' = b' :: h :: w :: cs ->
  length cs <= 1 -> 0 < R -> 0 < C ->
  R * C < b -> R * C <= b' ->
  firstn (R * C * (h * w * size_of cs)) (data imgs)
  = firstn (R * C * (h * w * size_of cs)) (data imgs') ->
  exists grid,
    batch_of_images_to_grid imgs (Z.of_nat R) (Z.of_nat C) = Ok grid /\
    batch_of_images_to_grid imgs' (Z.of_nat R) (Z.of_nat C) = Ok grid /\
    forall i y x ks,
      i < R * C -> y < h -> x < w -> in_bounds cs ks = true ->
      getitem grid (i / C * h + y :: i mod C * w + x :: ks)
      = getitem imgs (i :: y :: x :: ks)
      /\ getitem imgs (i :: y :: x :: ks) <> None.
Proof.
  intros Hwf Hwf' Hshape Hshape' Hcs HR HC Hb Hb' Hsame.
  eexists. split; [apply (tiler_closed Hwf Hshape Hcs HR HC)|]. split.
  - rewrite (tiler_closed Hwf' Hshape' Hcs HR HC).
    unfold padded_batch.
    replace (Nat.min (R * C) b) with (R * C) by lia.
    replace (Nat.min (R * C) b') with (R * C) by lia.
    rewrite Hsame. reflexivity.
  - intros i y x ks Hi Hy Hx Hks.
    destruct (@cell_of_index R C i HC Hi) as (Hr & Hc & Hrc).
    rewrite grid_getitem by assumption. rewrite Hrc.
    rewrite <- (@padded_batch_image R C h w cs imgs b i y x ks)
      by (assumption || lia).
    split; [reflexivity | discriminate].
Qed.

Lemma C4_excess_images_dropped_witness :
  exists grid,
    batch_of_images_to_grid six_images (Z.of_nat 2) (Z.of_nat 2) = Ok grid /\
    batch_of_images_to_grid
      (mk_ndarray [4; 2; 2]
         [1; 2; 3; 4; 11; 12; 13; 14; 21; 22; 23; 24; 31; 32; 33; 34]%Z)
      (Z.of_nat 2) (Z.of_nat 2) = Ok grid /\
    forall i y x ks,
      i < 2 * 2 -> y < 2 -> x < 2 -> in_bounds [] ks = true ->
      getitem grid (i / 2 * 2 + y :: i mod 2 * 2 + x :: ks)
      = getitem six_images (i :: y :: x :: ks)
      /\ getitem six_images (i :: y :: x :: ks) <> None.
Proof.
  apply (@C4_excess_images_dropped six_images _ 2 2 6 4 2 2 []);
    [reflexivity | reflexivity | reflexivity | reflexivity | simpl; lia
     | lia | lia | simpl; lia | simpl; lia | reflexivity].
Defined.

(** C5.  With fewer images than cells, every cell from index [b] on holds
    zeros only; an empty batch gives the all-zero grid of the computed
    shape. *)
Theorem C5_missing_cells_zero (imgs : ndarray) (R C b h w : nat) (cs : list nat) :
  wf imgs -> shape imgs = b :: h :: w :: cs -> length cs <= 1 ->
  0 < R -> 0 < C -> b < R * C ->
  exists grid,
    batch_of_images_to_grid imgs (Z.of_nat R) (Z.of_nat C) = Ok grid /\
    (forall i y x ks,
       b <= i -> i < R * C -> y < h -> x < w -> in_bounds cs ks = true ->
       getitem grid (i / C * h + y :: i mod C * w + x :: ks) = Some 0%Z) /\
    (b = 0 -> grid = zeros (R * h :: C * w :: cs)).
Proof.
  intros Hwf Hshape Hcs HR HC Hb.
  eexists. split; [apply (tiler_closed Hwf Hshape Hcs HR HC)|]. split.
  - intros i y x ks Hbi Hi Hy Hx Hks.
    destruct (@cell_of_index R C i HC Hi) as (Hr & Hc & Hrc).
    rewrite grid_getitem by assumption. rewrite Hrc.
    rewrite (@padded_batch_blank R C h w cs imgs b i y x ks) by assumption.
    reflexivity.
  - intros ->. unfold zeros. f_equal.
    unfold padded_batch, grid_data.
    rewrite Nat.min_0_r. cbn [Nat.mul firstn app].
    rewrite (map_ext _ (fun _ => 0%Z)) by (intros; apply nth_repeat_zero).
    rewrite map_const_zero, length_seq. f_equal.
    rewrite !size_of_cons. change (size_of []) with 1. ring.
Qed.

Lemma C5_missing_cells_zero_witness :
  exists grid,
    batch_of_images_to_grid (mk_ndarray [0; 2; 2] []) (Z.of_nat 1) (Z.of_nat 2)
    = Ok grid /\
    (forall i y x ks,
       0 <= i -> i < 1 * 2 -> y < 2 -> x < 2 -> in_bounds [] ks = true ->
       getitem grid (i / 2 * 2 + y :: i mod 2 * 2 + x :: ks) = Some 0%Z) /\
    (0 = 0 -> grid = zeros [1 * 2; 2 * 2]).
Proof.
  apply (@C5_missing_cells_zero (mk_ndarray [0; 2; 2] []) 1 2 0 2 2 []);
    [reflexivity | reflexivity | simpl; lia | lia | lia | simpl; lia].
Defined.

(** Wrong grid dimensions are rejected by the first assertion. *)
Lemma tiler_nonpositive_grid (imgs : ndarray) (rows cols : Z) :
  (rows <= 0 \/ cols <= 0)%Z ->
  batch_of_images_to_grid imgs rows cols = Err AssertionError.
Proof.
  intros H. unfold batch_of_images_to_grid.
  replace ((0 <? rows)%Z && (0 <? cols)%Z) with false; [reflexivity|].
  symmetry. apply andb_false_iff.
  destruct H; [left | right]; apply Z.ltb_ge; assumption.
Qed.

(** A batch of a rank other than 0, 3 and 4 is rejected by the second
    assertion. *)
Lemma tiler_wrong_rank (imgs : ndarray) (rows cols : Z) :
  (0 < rows)%Z -> (0 < cols)%Z ->
  ndim imgs <> 0 -> ndim imgs <> 3 -> ndim imgs <> 4 ->
  batch_of_images_to_grid imgs rows cols = Err AssertionError.
Proof.
  intros Hr Hc H0 H3 H4. unfold batch_of_images_to_grid.
  replace ((0 <? rows)%Z && (0 <? cols)%Z) with true
    by (symmetry; apply andb_true_intro; split; apply Z.ltb_lt; assumption).
  cbn [py_assert bind]. unfold slice_stop, ndim in *.
  destruct (shape imgs) as [|b rest]; [exfalso; apply H0; reflexivity|].
  cbn [bind shape length] in *.
  replace ((S (length rest) =? 3) || (S (length rest) =? 4)) with false;
    [reflexivity|].
  symmetry. apply orb_false_iff. split; apply Nat.eqb_neq; assumption.
Qed.

(** A 0-d batch never reaches the rank assertion. *)
Lemma tiler_rank0 (imgs : ndarray) (rows cols : Z) :
  (0 < rows)%Z -> (0 < cols)%Z -> ndim imgs = 0 ->
  batch_of_images_to_grid imgs rows cols = Err IndexError.
Proof.
  intros Hr Hc H0. unfold batch_of_images_to_grid.
  replace ((0 <? rows)%Z && (0 <? cols)%Z) with true
    by (symmetry; apply andb_true_intro; split; apply Z.ltb_lt; assumption).
  cbn [py_assert bind]. unfold slice_stop, ndim in *.
  destruct (shape imgs); [reflexivity | discriminate].
Qed.

(** ** The label colorizer *)

Section Unique.

Lemma insert_unique_In (v x : Z) (l : list Z) :
  In x (insert_unique v l) <-> x = v \/ In x l.
Proof.
  induction l as [|a l IH]; simpl.
  - intuition congruence.
  - destruct (v <? a)%Z; [simpl; intuition congruence|].
    destruct (v =? a)%Z eqn:E.
    + apply Z.eqb_eq in E. subst. simpl. intuition congruence.
    + simpl. rewrite IH. intuition congruence.
Qed.

Lemma unique_In (a : ndarray) (x : Z) : In x (unique a) <-> In x (data a).
Proof.
  unfold unique. induction (data a) as [|v l IH]; simpl; [tauto|].
  rewrite insert_unique_In, IH. intuition congruence.
Qed.

End Unique.

Section Paint.

Lemma paint_length (mask : list bool) (c : rgb) (px : list Z) :
  length (paint mask c px) = length px.
Proof.
  revert px; induction mask as [|m mask IH]; intros px; [destruct px; reflexivity|].
  destruct px as [|r [|g [|b px]]]; try reflexivity.
  destruct c as [[cr cg] cb]. cbn [paint].
  rewrite length_app, IH. destruct m; reflexivity.
Qed.

Lemma px3_step (p : nat) (r g b : Z) (l : list Z) :
  px3 (S p) (r :: g :: b :: l) = px3 p l.
Proof.
  unfold px3. replace (3 * S p) with (S (S (S (3 * p)))) by lia. reflexivity.
Qed.

Lemma paint_px3 (mask : list bool) (c : rgb) (px : list Z) (p : nat) :
  length px = 3 * length mask -> p < length mask ->
  px3 p (paint mask c px)
  = if nth p mask false
    then (let '(r, g, b) := c in [uint8 r; uint8 g; uint8 b])
    else px3 p px.
Proof.
  revert px p; induction mask as [|m mask IH]; intros px p Hlen Hp;
    [simpl in Hp; lia|].
  destruct px as [|r [|g [|b px]]]; simpl in Hlen; try lia.
  destruct c as [[cr cg] cb]. cbn [paint].
  destruct p as [|p].
  - destruct m; reflexivity.
  - assert (Hstep : forall x y z, px3 (S p) ([x; y; z] ++ paint mask (cr, cg, cb) px)
                                  = px3 p (paint mask (cr, cg, cb) px))
      by (intros; apply px3_step).
    destruct m; rewrite Hstep, px3_step; cbn [nth];
      apply IH; simpl in *; lia.
Qed.

End Paint.

Lemma label_length (label : ndarray) (h w : nat) :
  wf label -> shape label = [h; w] -> length (data label) = h * w.
Proof. intros Hwf Hshape. red in Hwf. rewrite Hwf, Hshape. cbn. lia. Qed.

Section Colorize.

Variables (label : ndarray) (cm : list rgb) (h w : nat).
Hypothesis Hwf : wf label.
Hypothesis Hshape : shape label = [h; w].

Let n : Z := Z.of_nat (length cm).

Let body : ndarray -> Z -> result ndarray :=
  fun viz uid => c <- list_getitem cm uid ;; setitem_mask viz label uid c.

Lemma list_getitem_cases (u : Z) :
  (index_ok n u /\ exists c, list_getitem cm u = Ok c)
  \/ (~ index_ok n u /\ list_getitem cm u = Err IndexError).
Proof.
  unfold list_getitem, index_ok. fold n.
  destruct (u <? 0)%Z eqn:Eneg;
    [apply Z.ltb_lt in Eneg | apply Z.ltb_ge in Eneg].
  - destruct ((u + n <? 0)%Z || (n <=? u + n)%Z) eqn:Eout.
    + right. split; [|reflexivity].
      apply orb_true_iff in Eout as [E | E];
        [apply Z.ltb_lt in E | apply Z.leb_le in E]; lia.
    + apply orb_false_iff in Eout as [E1 E2].
      apply Z.ltb_ge in E1. apply Z.leb_gt in E2.
      destruct (nth_error cm (Z.to_nat (u + n))) eqn:En.
      * left. split; [lia | eexists; reflexivity].
      * apply nth_error_None in En. subst n. lia.
  - destruct ((u <? 0)%Z || (n <=? u)%Z) eqn:Eout.
    + right. split; [|reflexivity].
      apply orb_true_iff in Eout as [E | E];
        [apply Z.ltb_lt in E | apply Z.leb_le in E]; lia.
    + apply orb_false_iff in Eout as [E1 E2].
      apply Z.ltb_ge in E1. apply Z.leb_gt in E2.
      destruct (nth_error cm (Z.to_nat u)) eqn:En.
      * left. split; [lia | eexists; reflexivity].
      * apply nth_error_None in En. subst n. lia.
Qed.

Lemma shape_eqb_refl (sh : list nat) : shape_eqb sh sh = true.
Proof. induction sh; simpl; [reflexivity|]. rewrite Nat.eqb_refl; assumption. Qed.

Lemma setitem_mask_ok (viz : ndarray) (uid : Z) (c : rgb) :
  shape viz = [h; w; 3] ->
  setitem_mask viz label uid c =
  Ok (mk_ndarray [h; w; 3] (paint (map (Z.eqb uid) (data label)) c (data viz))).
Proof.
  intros Hviz. unfold setitem_mask, ndim.
  rewrite Hshape, Hviz. cbn [length app Nat.eqb andb].
  rewrite shape_eqb_refl. reflexivity.
Qed.

Lemma mask_nth (uid : Z) (p : nat) :
  p < h * w ->
  nth p (map (Z.eqb uid) (data label)) false = (uid =? nth p (data label) 0%Z)%Z.
Proof.
  intros Hp.
  rewrite (nth_indep _ false ((uid =? 0)%Z))
    by (rewrite length_map, (label_length Hwf Hshape); exact Hp).
  apply (map_nth (Z.eqb uid)).
Qed.

(** The loop over the distinct labels: it stops with [IndexError] at the
    first label the colormap cannot be indexed with; otherwise a pixel whose
    label was met carries that label's colour and the others are untouched. *)
Lemma loop_spec (uids : list Z) :
  forall viz,
    shape viz = [h; w; 3] -> length (data viz) = 3 * (h * w) ->
    match for_each uids body viz with
    | Ok viz' =>
        Forall (index_ok n) uids /\
        shape viz' = [h; w; 3] /\
        length (data viz') = 3 * (h * w) /\
        forall p, p < h * w ->
          px3 p (data viz')
          = if existsb (Z.eqb (nth p (data label) 0%Z)) uids
            then stored_colour cm (nth p (data label) 0%Z)
            else px3 p (data viz)
    | Err e => e = IndexError /\ Exists (fun u => ~ index_ok n u) uids
    end.
Proof.
  induction uids as [|u us IH]; intros viz Hviz Hlen.
  - cbn. repeat split; auto.
  - cbn [for_each]. unfold body at 1.
    destruct (list_getitem_cases u) as [[Hok [c Hc]] | [Hbad Herr]].
    + rewrite Hc. cbn [bind]. rewrite setitem_mask_ok by exact Hviz. cbn [bind].
      set (viz1 := mk_ndarray [h; w; 3] _).
      assert (Hlen1 : length (data viz1) = 3 * (h * w))
        by (subst viz1; cbn [data]; rewrite paint_length; exact Hlen).
      specialize (IH viz1 eq_refl Hlen1).
      destruct (for_each us body viz1) as [viz'|e].
      * destruct IH as (Hall & Hsh & Hl & Hpx).
        split; [constructor; assumption|]. split; [exact Hsh|]. split; [exact Hl|].
        intros p Hp. rewrite (Hpx p Hp). cbn [existsb].
        destruct (existsb (Z.eqb (nth p (data label) 0%Z)) us);
          [rewrite orb_true_r; reflexivity|].
        rewrite orb_false_r. subst viz1; cbn [data].
        rewrite paint_px3
          by (rewrite length_map, (label_length Hwf Hshape); lia).
        rewrite mask_nth by exact Hp. rewrite Z.eqb_sym.
        destruct (nth p (data label) 0 =? u)%Z eqn:E; [|reflexivity].
        apply Z.eqb_eq in E. rewrite E. unfold stored_colour. rewrite Hc.
        destruct c as [[r g] b]. reflexivity.
      * destruct IH as [-> Hex]. split; [reflexivity | apply Exists_cons_tl; exact Hex].
    + rewrite Herr. cbn [bind]. split; [reflexivity | apply Exists_cons_hd; exact Hbad].
Qed.

End Colorize.

Lemma fromarray_rgb (h w : nat) (d : list Z) :
  length d = 3 * (h * w) ->
  fromarray (mk_ndarray [h; w; 3] d) None = Ok (mk_image RGB w h d).
Proof.
  intros Hd. unfold fromarray. cbn [shape data skipn typemap bind ndim length bands].
  replace (3 <? 3) with false by reflexivity.
  cbn [tuple_get nth_error bind Nat.eqb].
  replace (length d =? w * h * 3) with true; [reflexivity|].
  symmetry. apply Nat.eqb_eq. lia.
Qed.

Lemma label_at (label : ndarray) (h w y x : nat) (k : Z) :
  shape label = [h; w] ->
  getitem label [y; x] = Some k ->
  y < h /\ x < w /\ nth (y * w + x) (data label) 0%Z = k.
Proof.
  intros Hshape. unfold getitem. rewrite Hshape. cbn [in_bounds ravel size_of fold_right].
  destruct (y <? h) eqn:Ey; [|discriminate].
  destruct (x <? w) eqn:Ex; [|discriminate].
  apply Nat.ltb_lt in Ey. apply Nat.ltb_lt in Ex. cbn [andb].
  replace (y * (w * 1) + (x * 1 + 0)) with (y * w + x) by lia.
  intros Hk. repeat split; try assumption.
  apply nth_error_nth. exact Hk.
Qed.

Section ColorizeSpec.

Variables (label : ndarray) (colormap : option (list rgb)) (h w : nat).
Hypothesis Hwf : wf label.
Hypothesis Hshape : shape label = [h; w].

Let cm : list rgb := colormap_or default_colormap colormap.
Let n : Z := Z.of_nat (length cm).

(** The colorizer as a whole: it raises nothing but [IndexError], and that
    exactly when a label does not index the colormap; otherwise the image
    is RGB, of the size of the label array, and every pixel carries what
    the colormap holds at its label. *)
Lemma colorize_spec :
  match viz_segmentation_label label colormap with
  | Ok im =>
      Forall (index_ok n) (data label) /\
      mode im = RGB /\ width im = w /\ height im = h /\
      length (pixels im) = 3 * (h * w) /\
      forall y x, y < h -> x < w ->
        getpixel im x y = Some (stored_colour cm (nth (y * w + x) (data label) 0%Z))
  | Err e => e = IndexError /\ Exists (fun v => ~ index_ok n v) (data label)
  end.
Proof.
  unfold viz_segmentation_label. rewrite Hshape.
  cbn [tuple_get nth_error bind].
  change (match colormap with Some c => c | None => default_colormap end) with cm.
  assert (Hz : length (data (zeros [h; w; 3])) = 3 * (h * w))
    by (cbn [zeros data]; rewrite repeat_length; cbn; lia).
  pose proof (@loop_spec label cm h w Hwf Hshape (unique label) (zeros [h; w; 3])
                eq_refl Hz) as Hloop.
  fold n in Hloop.
  destruct (for_each (unique label) _ (zeros [h; w; 3])) as [viz|e]; cbn [bind].
  - destruct Hloop as (Hall & Hsh & Hlen & Hpx).
    destruct viz as [sh d]; cbn [shape data] in *; subst sh.
    rewrite fromarray_rgb by exact Hlen.
    split; [|cbn [mode width height pixels]; repeat split; try exact Hlen].
    + apply Forall_forall. intros v Hv.
      rewrite Forall_forall in Hall. apply Hall, unique_In, Hv.
    + intros y x Hy Hx. unfold getpixel; cbn [mode width height pixels bands].
      apply Nat.ltb_lt in Hx as Hx'. apply Nat.ltb_lt in Hy as Hy'.
      rewrite Hx', Hy'. cbn [andb]. f_equal.
      assert (Hp : y * w + x < h * w) by nia.
      change (firstn 3 (skipn (3 * (y * w + x)) d)) with (px3 (y * w + x) d).
      rewrite (Hpx _ Hp).
      replace (existsb _ (unique label)) with true; [reflexivity|].
      symmetry. apply existsb_exists.
      exists (nth (y * w + x) (data label) 0%Z). split; [|apply Z.eqb_refl].
      apply unique_In, nth_In. rewrite (label_length Hwf Hshape). exact Hp.
  - destruct Hloop as [-> Hex]. split; [reflexivity|].
    apply Exists_exists in Hex as (v & Hv & Hbad).
    apply Exists_exists. exists v. split; [apply unique_In, Hv | exact Hbad].
Qed.

End ColorizeSpec.

Section ColormapLookup.

Variable cm : list rgb.
Hypothesis Hvalid : valid_colormap cm.

Lemma uint8_byte (v : Z) : byte_ok v -> uint8 v = v.
Proof. unfold byte_ok, uint8. intros Hv. apply Z.mod_small. lia. Qed.

Lemma stored_valid (k : Z) (r g b : Z) :
  list_getitem cm k = Ok (r, g, b) -> In (r, g, b) cm ->
  stored_colour cm k = [r; g; b].
Proof.
  intros Hget Hin. unfold stored_colour. rewrite Hget.
  red in Hvalid. rewrite Forall_forall in Hvalid.
  destruct (Hvalid _ Hin) as (Hr & Hg & Hb).
  rewrite !uint8_byte by assumption. reflexivity.
Qed.

(** A label from [0] on selects the entry at its own position. *)
Lemma stored_colour_at (k : Z) (r g b : Z) :
  (0 <= k)%Z -> nth_error cm (Z.to_nat k) = Some (r, g, b) ->
  stored_colour cm k = [r; g; b].
Proof.
  intros Hk Hnth.
  assert (Hlt : Z.to_nat k < length cm) by (apply nth_error_Some; congruence).
  apply stored_valid; [|eapply nth_error_In; exact Hnth].
  unfold list_getitem. cbv zeta.
  destruct (k <? 0)%Z eqn:E; [apply Z.ltb_lt in E; lia|]. rewrite E.
  replace (Z.of_nat (length cm) <=? k)%Z with false
    by (symmetry; apply Z.leb_gt; lia).
  cbn [orb]. rewrite Hnth. reflexivity.
Qed.

(** A negative label counts from the end of the colormap. *)
Lemma stored_colour_from_end (k : Z) (r g b : Z) :
  (- Z.of_nat (length cm) <= k < 0)%Z ->
  nth_error cm (Z.to_nat (Z.of_nat (length cm) + k)) = Some (r, g, b) ->
  stored_colour cm k = [r; g; b].
Proof.
  intros Hk Hnth.
  apply stored_valid; [|eapply nth_error_In; exact Hnth].
  unfold list_getitem. cbv zeta.
  destruct (k <? 0)%Z eqn:E; [|apply Z.ltb_ge in E; lia].
  replace (k + Z.of_nat (length cm) <? 0)%Z with false
    by (symmetry; apply Z.ltb_ge; lia).
  replace (Z.of_nat (length cm) <=? k + Z.of_nat (length cm))%Z with false
    by (symmetry; apply Z.leb_gt; lia).
  cbn [orb]. rewrite Z.add_comm, Hnth. reflexivity.
Qed.

End ColormapLookup.

(** ** Claims about the label colorizer *)

(** C6.  For a 2D label array whose values all index the colormap from
    the front, the colorizer returns an RGB image of the height and width
    of the label array in which every pixel of label [k] has the colour
    [colormap[k]]; with no colormap given, the four default colours are
    used. *)
Theorem C6_labels_painted (label : ndarray) (colormap : option (list rgb))
    (h w : nat) :
  wf label -> shape label = [h; w] ->
  valid_colormap (colormap_or default_colormap colormap) ->
  (forall v, In v (data label) ->
     (0 <= v < Z.of_nat (length (colormap_or default_colormap colormap)))%Z) ->
  exists im,
    viz_segmentation_label label colormap = Ok im /\
    mode im = RGB /\ width im = w /\ height im = h /\
    forall y x k r g b,
      getitem label [y; x] = Some k ->
      nth_error (colormap_or default_colormap colormap) (Z.to_nat k) = Some (r, g, b) ->
      getpixel im x y = Some [r; g; b].
Proof.
  intros Hwf Hshape Hvalid Hrange.
  pose proof (colorize_spec colormap Hwf Hshape) as Hspec.
  destruct (viz_segmentation_label label colormap) as [im|e].
  - destruct Hspec as (_ & Hm & Hw & Hh & _ & Hpx).
    exists im. repeat split; try assumption.
    intros y x k r g b Hk Hnth.
    destruct (@label_at label h w y x k Hshape Hk) as (Hy & Hx & Hval).
    rewrite (Hpx y x Hy Hx), Hval. f_equal.
    apply stored_colour_at; try assumption.
    apply Hrange. rewrite <- Hval. apply nth_In.
    rewrite (label_length Hwf Hshape). nia.
  - destruct Hspec as [_ Hex]. exfalso.
    apply Exists_exists in Hex as (v & Hv & Hbad).
    apply Hbad. specialize (Hrange v Hv). unfold index_ok. lia.
Qed.

Lemma overlay_colormap_valid : valid_colormap overlay_colormap.
Proof. repeat constructor; unfold byte_ok; lia. Qed.

Lemma default_colormap_valid : valid_colormap default_colormap.
Proof. repeat constructor; unfold byte_ok; lia. Qed.

Lemma C6_labels_painted_witness :
  exists im,
    viz_segmentation_label (mk_ndarray [2; 2] [0; 1; 1; 0]%Z) None = Ok im /\
    mode im = RGB /\ width im = 2 /\ height im = 2 /\
    forall y x k r g b,
      getitem (mk_ndarray [2; 2] [0; 1; 1; 0]%Z) [y; x] = Some k ->
      nth_error default_colormap (Z.to_nat k) = Some (r, g, b) ->
      getpixel im x y = Some [r; g; b].
Proof.
  apply (@C6_labels_painted (mk_ndarray [2; 2] [0; 1; 1; 0]%Z) None 2 2);
    [reflexivity | reflexivity | exact default_colormap_valid |].
  simpl. intros v Hv. lia.
Defined.

(** C7, as amended.  With a colormap of byte triples the colorizer raises
    [IndexError] if and only if some label [v] has [v >= len(colormap)] or
    [v < -len(colormap)]; it raises no other error on a 2D label array.  In
    particular a label above [len(colormap) - 1] always raises. *)
Theorem C7_index_error_iff (label : ndarray) (colormap : option (list rgb))
    (h w : nat) :
  wf label -> shape label = [h; w] ->
  valid_colormap (colormap_or default_colormap colormap) ->
  (viz_segmentation_label label colormap = Err IndexError <->
   exists v, In v (data label) /\
     (Z.of_nat (length (colormap_or default_colormap colormap)) <= v
      \/ v < - Z.of_nat (length (colormap_or default_colormap colormap)))%Z)
  /\ (forall e, viz_segmentation_label label colormap = Err e -> e = IndexError).
Proof.
  intros Hwf Hshape _.
  pose proof (colorize_spec colormap Hwf Hshape) as Hspec.
  destruct (viz_segmentation_label label colormap) as [im|e].
  - split; [split|]; [discriminate | | discriminate].
    intros (v & Hv & Hbad). exfalso.
    destruct Hspec as (Hall & _). rewrite Forall_forall in Hall.
    specialize (Hall v Hv). unfold index_ok in Hall. lia.
  - destruct Hspec as [-> Hex]. split; [split; [|reflexivity] | intros e' [= <-]; reflexivity].
    intros _. apply Exists_exists in Hex as (v & Hv & Hbad).
    exists v. split; [exact Hv|]. unfold index_ok in Hbad. lia.
Qed.

Lemma C7_index_error_iff_witness :
  (viz_segmentation_label (mk_ndarray [1; 2] [0; 5]%Z) None = Err IndexError <->
   exists v, In v [0; 5]%Z /\
     (Z.of_nat (length default_colormap) <= v
      \/ v < - Z.of_nat (length default_colormap))%Z)
  /\ (forall e, viz_segmentation_label (mk_ndarray [1; 2] [0; 5]%Z) None = Err e ->
                e = IndexError).
Proof.
  apply (@C7_index_error_iff (mk_ndarray [1; 2] [0; 5]%Z) None 1 2);
    [reflexivity | reflexivity | exact default_colormap_valid].
Defined.

(** C7 as it is written makes the error depend on a label above
    [len(colormap) - 1] only; the label -5 raises it with four colours. *)
Lemma C7_label_below_raises :
  ~ (viz_segmentation_label (mk_ndarray [1; 1] [-5]%Z) None = Err IndexError <->
     exists v, In v [-5]%Z /\ (Z.of_nat (length default_colormap) - 1 < v)%Z).
Proof.
  intros [Hif _]. destruct (Hif eq_refl) as (v & [<- | []] & Hv).
  simpl in Hv. lia.
Qed.

(** C9, as amended.  A negative label [k] with [-len(colormap) <= k < 0]
    is no error by itself: when every label [v] has
    [-len(colormap) <= v < len(colormap)] the colorizer succeeds, and in
    every image it returns the pixels of a negative label [k] are painted
    [colormap[len(colormap) + k]].  The only error is [IndexError], raised
    only when some label is [>= len(colormap)] or [< -len(colormap)]. *)
Theorem C9_negative_labels (label : ndarray) (colormap : option (list rgb))
    (h w : nat) :
  wf label -> shape label = [h; w] ->
  valid_colormap (colormap_or default_colormap colormap) ->
  ((forall v, In v (data label) ->
      index_ok (Z.of_nat (length (colormap_or default_colormap colormap))) v) ->
   exists im, viz_segmentation_label label colormap = Ok im)
  /\ (forall im,
        viz_segmentation_label label colormap = Ok im ->
        forall y x k r g b,
          getitem label [y; x] = Some k -> (k < 0)%Z ->
          nth_error (colormap_or default_colormap colormap)
            (Z.to_nat (Z.of_nat (length (colormap_or default_colormap colormap)) + k))
          = Some (r, g, b) ->
          getpixel im x y = Some [r; g; b])
  /\ (forall e, viz_segmentation_label label colormap = Err e ->
        e = IndexError /\
        exists v, In v (data label) /\
          (Z.of_nat (length (colormap_or default_colormap colormap)) <= v
           \/ v < - Z.of_nat (length (colormap_or default_colormap colormap)))%Z).
Proof.
  intros Hwf Hshape Hvalid.
  pose proof (colorize_spec colormap Hwf Hshape) as Hspec.
  destruct (viz_segmentation_label label colormap) as [im|e].
  - destruct Hspec as (Hall & _ & _ & _ & _ & Hpx).
    split; [intros _; exists im; reflexivity|]. split; [|discriminate].
    intros im' [= <-] y x k r g b Hk Hneg Hnth.
    destruct (@label_at label h w y x k Hshape Hk) as (Hy & Hx & Hval).
    rewrite (Hpx y x Hy Hx), Hval. f_equal.
    apply stored_colour_from_end; try assumption.
    split; [|exact Hneg].
    rewrite Forall_forall in Hall.
    assert (Hin : In k (data label)).
    { rewrite <- Hval. apply nth_In. rewrite (label_length Hwf Hshape). nia. }
    apply (Hall k Hin).
  - destruct Hspec as [-> Hex].
    apply Exists_exists in Hex as (v & Hv & Hbad).
    split; [|split; [discriminate|]].
    + intros Hall. exfalso. apply Hbad, Hall, Hv.
    + intros e' [= <-]. split; [reflexivity|].
      exists v. split; [exact Hv|]. unfold index_ok in Hbad. lia.
Qed.

Lemma C9_negative_labels_witness :
  ((forall v, In v [-1; 0]%Z -> index_ok (Z.of_nat (length default_colormap)) v) ->
   exists im, viz_segmentation_label (mk_ndarray [1; 2] [-1; 0]%Z) None = Ok im)
  /\ (forall im,
        viz_segmentation_label (mk_ndarray [1; 2] [-1; 0]%Z) None = Ok im ->
        forall y x k r g b,
          getitem (mk_ndarray [1; 2] [-1; 0]%Z) [y; x] = Some k -> (k < 0)%Z ->
          nth_error default_colormap
            (Z.to_nat (Z.of_nat (length default_colormap) + k)) = Some (r, g, b) ->
          getpixel im x y = Some [r; g; b])
  /\ (forall e,
        viz_segmentation_label (mk_ndarray [1; 2] [-1; 0]%Z) None = Err e ->
        e = IndexError /\
        exists v, In v [-1; 0]%Z /\
          (Z.of_nat (length default_colormap) <= v
           \/ v < - Z.of_nat (length default_colormap))%Z).
Proof.
  apply (@C9_negative_labels (mk_ndarray [1; 2] [-1; 0]%Z) None 1 2);
    [reflexivity | reflexivity | exact default_colormap_valid].
Defined.

(** C9 as it is written lets an array with a negative label in
    [-len(colormap) .. -1] raise nothing, and lets only labels
    [>= len(colormap)] raise; the labels -1 and -5 with four colours raise
    [IndexError] although no label is 4 or more. *)
Lemma C9_label_below_raises :
  ~ (forall e,
       viz_segmentation_label (mk_ndarray [1; 2] [-1; -5]%Z) None = Err e ->
       exists v, In v [-1; -5]%Z /\ (Z.of_nat (length default_colormap) <= v)%Z).
Proof.
  intros H. destruct (H IndexError eq_refl) as (v & Hv & Hge).
  simpl in Hv, Hge. lia.
Qed.

Example colorize_minus_one :
  viz_segmentation_label (mk_ndarray [1; 2] [-1; 0]%Z) None =
  Ok (mk_image RGB 2 1 [48; 126; 199; 0; 0; 0]%Z).
Proof. reflexivity. Qed.

(** ** The image encoder *)

(** C10.  On an array of a rank other than 2 and 3 no branch of
    [array2pil] assigns [mode], and reading it for the call of
    [PIL.Image.fromarray] raises [UnboundLocalError]. *)
Theorem C10_mode_unbound (x : ndarray) :
  ndim x <> 2 -> ndim x <> 3 ->
  fst (array2pil_branches x) = None /\ array2pil x = Err UnboundLocalError.
Proof.
  intros H2 H3. unfold array2pil, array2pil_branches.
  apply Nat.eqb_neq in H2. apply Nat.eqb_neq in H3.
  rewrite H2, H3. cbn. split; reflexivity.
Qed.

Lemma C10_mode_unbound_witness :
  fst (array2pil_branches (mk_ndarray [2; 1; 1; 3] [1; 2; 3; 4; 5; 6]%Z)) = None /\
  array2pil (mk_ndarray [2; 1; 1; 3] [1; 2; 3; 4; 5; 6]%Z) = Err UnboundLocalError.
Proof.
  apply (@C10_mode_unbound (mk_ndarray [2; 1; 1; 3] [1; 2; 3; 4; 5; 6]%Z));
    vm_compute; lia.
Defined.

(** On the two supported ranks [mode] is assigned. *)
Lemma array2pil_mode_assigned (x : ndarray) :
  ndim x = 2 \/ ndim x = 3 -> fst (array2pil_branches x) <> None.
Proof.
  unfold array2pil_branches. intros [-> | ->]; cbn; [discriminate|].
  destruct (nth 2 (shape x) 0 =? 1); discriminate.
Qed.

(** ** The overlay compositor *)

Section BlendArithmetic.

(** The cast of a Python float depends on its value only. *)
Lemma of_Q_eq (alpha beta : Q) :
  (alpha == beta)%Q -> F32.of_Q alpha = F32.of_Q beta.
Proof.
  intros H. unfold F32.of_Q. rewrite (Qred_complete _ _ H). reflexivity.
Qed.

Lemma of_Q_zero (alpha : Q) : (alpha == 0)%Q -> F32.of_Q alpha = F32.zero.
Proof. intros H. rewrite (of_Q_eq H). reflexivity. Qed.

Lemma of_Q_one (alpha : Q) : (alpha == 1)%Q -> F32.of_Q alpha = F32.one.
Proof. intros H. rewrite (of_Q_eq H). reflexivity. Qed.








End BlendArithmetic.

Section Bytes.










End Bytes.

Section Overlay.


Lemma blend_same_size (im1 im2 : image) (alpha : Q) :
  mode im1 = RGB -> mode im2 = RGB ->
  width im1 = width im2 -> height im1 = height im2 ->
  blend im1 im2 alpha =
  if F32.eqb (F32.of_Q alpha) F32.zero then Ok im1
  else if F32.eqb (F32.of_Q alpha) F32.one then Ok im2
  else Ok (mk_image RGB (width im1) (height im1)
             (map2 (blend_byte alpha) (pixels im1) (pixels im2))).
Proof.
  intros Hm1 Hm2 Hw Hh. unfold blend.
  rewrite Hm1, Hm2, <- Hw, <- Hh, !Nat.eqb_refl. reflexivity.
Qed.

End Overlay.

(** ** Claims about the overlay compositor *)




(** The single-precision blend on bytes whose exact blend is a whole
    number: 25 and 0 at [alpha = 0.6] give 9, not 10. *)
Example overlay_six_tenths :
  viz_overlayed_segmentation_label (mk_ndarray [1; 1] [25%Z])
    (mk_ndarray [1; 1] [1%Z]) None (6 # 10)
  = Ok (mk_image RGB 1 1 [163; 9; 9]%Z).
Proof. vm_compute. reflexivity. Qed.

(** * Further properties of the code *)

Ltac bytes_ok :=
  repeat (apply Forall_cons; [unfold byte_ok; lia|]); apply Forall_nil.

(** ** Offsets, the other way round *)

Section Unravel.

Lemma unravel_in_bounds (sh : list nat) (p : nat) :
  p < size_of sh -> in_bounds sh (unravel sh p) = true.
Proof.
  revert p; induction sh as [|d sh IH]; intros p Hp; [reflexivity|].
  rewrite size_of_cons in Hp. cbn [unravel in_bounds].
  assert (Hpos : size_of sh <> 0) by (intros E; rewrite E in Hp; lia).
  apply andb_true_intro. split.
  - apply Nat.ltb_lt. apply Nat.Div0.div_lt_upper_bound. lia.
  - apply IH. apply Nat.mod_upper_bound. exact Hpos.
Qed.

Lemma ravel_unravel (sh : list nat) (p : nat) :
  p < size_of sh -> ravel sh (unravel sh p) = p.
Proof.
  revert p; induction sh as [|d sh IH]; intros p Hp.
  - cbn in *. lia.
  - rewrite size_of_cons in Hp. cbn [unravel ravel].
    assert (Hpos : size_of sh <> 0) by (intros E; rewrite E in Hp; lia).
    rewrite IH by (apply Nat.mod_upper_bound; exact Hpos).
    pose proof (Nat.div_mod_eq p (size_of sh)). lia.
Qed.

Lemma map_nth_seq (d : list Z) :
  map (fun p => nth p d 0%Z) (seq 0 (length d)) = d.
Proof.
  apply (nth_ext _ _ 0%Z 0%Z); [rewrite length_map, length_seq; reflexivity|].
  intros p Hp. rewrite length_map, length_seq in Hp.
  rewrite nth_map_seq by exact Hp. reflexivity.
Qed.

End Unravel.

Section GridSource.

Variables (R C h w K : nat).

Let N : nat := size_of [R; h; C; w; K].

(** The index at an offset of the grid, axis by axis. *)
Lemma unravel_grid (p : nat) :
  p < N ->
  exists r y cc x k,
    unravel [R; h; C; w; K] p = [r; y; cc; x; k] /\
    r < R /\ y < h /\ cc < C /\ x < w /\ k < K.
Proof.
  intros Hp. pose proof (unravel_in_bounds [R; h; C; w; K] Hp) as Hb.
  remember (unravel [R; h; C; w; K] p) as idx eqn:E.
  cbn [unravel] in E.
  destruct idx as [|r [|y [|cc [|x [|k [|]]]]]]; try discriminate E.
  exists r, y, cc, x, k. split; [reflexivity|].
  cbn [in_bounds] in Hb.
  repeat (apply andb_prop in Hb as [?%Nat.ltb_lt Hb]). tauto.
Qed.

Lemma grid_source_lt (p : nat) : p < N -> grid_source R C h w K p < N.
Proof.
  intros Hp. destruct (unravel_grid Hp) as (r & y & cc & x & k & E & Hr & Hy & Hc & Hx & Hk).
  unfold grid_source. rewrite E.
  change (swap_nth 1 2 0 [r; y; cc; x; k]) with [r; cc; y; x; k].
  replace N with (size_of [R; C; h; w; K])
    by (subst N; rewrite !size_of_cons; change (size_of []) with 1; ring).
  apply ravel_lt. repeat (apply in_bounds_cons; [assumption|]). reflexivity.
Qed.

Lemma grid_source_inj (p q : nat) :
  p < N -> q < N -> grid_source R C h w K p = grid_source R C h w K q -> p = q.
Proof.
  intros Hp Hq E.
  destruct (unravel_grid Hp) as (r & y & cc & x & k & Ep & Hr & Hy & Hc & Hx & Hk).
  destruct (unravel_grid Hq) as (r' & y' & cc' & x' & k' & Eq' & Hr' & Hy' & Hc' & Hx' & Hk').
  unfold grid_source in E. rewrite Ep, Eq' in E.
  change (swap_nth 1 2 0 [r; y; cc; x; k]) with [r; cc; y; x; k] in E.
  change (swap_nth 1 2 0 [r'; y'; cc'; x'; k']) with [r'; cc'; y'; x'; k'] in E.
  apply (f_equal (unravel [R; C; h; w; K])) in E.
  rewrite !unravel_ravel in E
    by (repeat (apply in_bounds_cons; [assumption|]); reflexivity).
  injection E as -> -> -> -> ->.
  rewrite <- (ravel_unravel [R; h; C; w; K] Hp), <- (ravel_unravel [R; h; C; w; K] Hq).
  rewrite Ep, Eq'. reflexivity.
Qed.

(** The tiler moves elements around: the grid holds the elements of the
    padded batch, each as often as the batch does. *)
Lemma grid_data_permutation (d : list Z) :
  length d = N -> Permutation (grid_data R C h w K d) d.
Proof.
  intros Hd.
  assert (Hsrc : Permutation (map (grid_source R C h w K) (seq 0 N)) (seq 0 N)).
  { apply NoDup_Permutation_bis.
    - apply NoDup_map_NoDup_ForallPairs; [|apply seq_NoDup].
      intros p q Hp%in_seq Hq%in_seq. apply grid_source_inj; lia.
    - rewrite length_map. apply Nat.le_refl.
    - intros q Hq. apply in_map_iff in Hq as (p & <- & Hp%in_seq).
      apply in_seq. split; [lia|]. apply grid_source_lt. lia. }
  apply (Permutation_map (fun q => nth q d 0%Z)) in Hsrc.
  rewrite map_map in Hsrc.
  assert (Hid : map (fun q => nth q d 0%Z) (seq 0 N) = d)
    by (rewrite <- Hd; apply map_nth_seq).
  rewrite Hid in Hsrc. exact Hsrc.
Qed.

End GridSource.

(** ** More on the grid tiler *)

Lemma tiler_succeeds (imgs : ndarray) (rows cols : Z) :
  wf imgs -> (0 < rows)%Z -> (0 < cols)%Z -> ndim imgs = 3 \/ ndim imgs = 4 ->
  exists grid, batch_of_images_to_grid imgs rows cols = Ok grid.
Proof.
  intros Hwf Hr Hc Hrank.
  rewrite <- (Z2Nat.id rows), <- (Z2Nat.id cols) by lia.
  assert (HR : 0 < Z.to_nat rows) by lia.
  assert (HC : 0 < Z.to_nat cols) by lia.
  unfold ndim in Hrank.
  destruct (shape imgs) as [|b [|h [|w cs]]] eqn:Hshape;
    try (cbn in Hrank; lia).
  assert (Hcs : length cs <= 1) by (cbn in Hrank; lia).
  eexists. apply (tiler_closed Hwf Hshape Hcs HR HC).
Qed.

(** X1.  What the tiler does with every well-formed array: it returns a
    grid exactly when [rows] and [cols] are positive and the rank is 3 or
    4; it raises [IndexError] exactly when they are positive and the array
    is 0-d; every other failure is an [AssertionError].  The padding, the
    two reshapes and the squeeze never fail. *)
Theorem X1_tiler_outcome (imgs : ndarray) (rows cols : Z) :
  wf imgs ->
  ((exists grid, batch_of_images_to_grid imgs rows cols = Ok grid) <->
   (0 < rows)%Z /\ (0 < cols)%Z /\ (ndim imgs = 3 \/ ndim imgs = 4))
  /\ (batch_of_images_to_grid imgs rows cols = Err IndexError <->
      (0 < rows)%Z /\ (0 < cols)%Z /\ ndim imgs = 0)
  /\ (forall e, batch_of_images_to_grid imgs rows cols = Err e ->
        e = AssertionError \/ e = IndexError).
Proof.
  intros Hwf.
  destruct (Z_lt_le_dec 0 rows) as [Hr | Hr];
    [destruct (Z_lt_le_dec 0 cols) as [Hc | Hc]|].
  - destruct (Nat.eq_dec (ndim imgs) 0) as [H0 | H0].
    + rewrite (@tiler_rank0 imgs rows cols Hr Hc H0).
      split; [split; [intros [g Hg]; discriminate | intros (_ & _ & [H | H]); lia]|].
      split; [tauto | intros e [= <-]; right; reflexivity].
    + destruct (Nat.eq_dec (ndim imgs) 3) as [H3 | H3];
        [|destruct (Nat.eq_dec (ndim imgs) 4) as [H4 | H4]].
      * destruct (@tiler_succeeds imgs rows cols Hwf Hr Hc (or_introl H3)) as [g Hg].
        rewrite Hg. split; [split; [tauto | intros _; exists g; reflexivity]|].
        split; [split; [discriminate | tauto] | discriminate].
      * destruct (@tiler_succeeds imgs rows cols Hwf Hr Hc (or_intror H4)) as [g Hg].
        rewrite Hg. split; [split; [tauto | intros _; exists g; reflexivity]|].
        split; [split; [discriminate | tauto] | discriminate].
      * rewrite (@tiler_wrong_rank imgs rows cols Hr Hc H0 H3 H4).
        split; [split; [intros [g Hg]; discriminate | intros (_ & _ & [H | H]); lia]|].
        split; [split; [discriminate | tauto] | intros e [= <-]; left; reflexivity].
  - rewrite (@tiler_nonpositive_grid imgs rows cols (or_intror Hc)).
    split; [split; [intros [g Hg]; discriminate | intros (_ & H & _); lia]|].
    split; [split; [discriminate | intros (_ & H & _); lia]
           | intros e [= <-]; left; reflexivity].
  - rewrite (@tiler_nonpositive_grid imgs rows cols (or_introl Hr)).
    split; [split; [intros [g Hg]; discriminate | intros (H & _); lia]|].
    split; [split; [discriminate | intros (H & _); lia]
           | intros e [= <-]; left; reflexivity].
Qed.

Lemma X1_tiler_outcome_witness :
  ((exists grid, batch_of_images_to_grid (mk_ndarray [2; 3] [1; 2; 3; 4; 5; 6]%Z) 1 2
                 = Ok grid) <->
   (0 < 1)%Z /\ (0 < 2)%Z /\
   (ndim (mk_ndarray [2; 3] [1; 2; 3; 4; 5; 6]%Z) = 3
    \/ ndim (mk_ndarray [2; 3] [1; 2; 3; 4; 5; 6]%Z) = 4))
  /\ (batch_of_images_to_grid (mk_ndarray [2; 3] [1; 2; 3; 4; 5; 6]%Z) 1 2
      = Err IndexError <->
      (0 < 1)%Z /\ (0 < 2)%Z /\ ndim (mk_ndarray [2; 3] [1; 2; 3; 4; 5; 6]%Z) = 0)
  /\ (forall e,
        batch_of_images_to_grid (mk_ndarray [2; 3] [1; 2; 3; 4; 5; 6]%Z) 1 2 = Err e ->
        e = AssertionError \/ e = IndexError).
Proof.
  apply (@X1_tiler_outcome (mk_ndarray [2; 3] [1; 2; 3; 4; 5; 6]%Z) 1 2).
  reflexivity.
Defined.

(** X2.  For every batch size the grid has shape [(R*h, C*w[, c])] and is
    a rearrangement of the batch cut to [R*C] images and filled up with
    zero images: no element is lost, repeated or changed.  A batch of
    exactly [R*C] images is rearranged as a whole. *)
Theorem X2_grid_rearranges_batch (imgs : ndarray) (R C b h w : nat) (cs : list nat) :
  wf imgs -> shape imgs = b :: h :: w :: cs -> length cs <= 1 ->
  0 < R -> 0 < C ->
  exists grid,
    batch_of_images_to_grid imgs (Z.of_nat R) (Z.of_nat C) = Ok grid /\
    shape grid = R * h :: C * w :: cs /\
    Permutation (data grid)
      (padded_batch (R * C) (h * w * size_of cs) b (data imgs)) /\
    (b = R * C -> Permutation (data grid) (data imgs)).
Proof.
  intros Hwf Hshape Hcs HR HC.
  eexists. split; [apply (tiler_closed Hwf Hshape Hcs HR HC)|].
  cbn [shape data]. split; [reflexivity|].
  assert (Hperm : Permutation
            (grid_data R C h w (size_of cs)
               (padded_batch (R * C) (h * w * size_of cs) b (data imgs)))
            (padded_batch (R * C) (h * w * size_of cs) b (data imgs))).
  { apply grid_data_permutation.
    rewrite (padded_batch_length Hwf Hshape Hcs HR HC).
    rewrite !size_of_cons. change (size_of []) with 1. ring. }
  split; [exact Hperm|].
  intros ->. revert Hperm. unfold padded_batch.
  rewrite Nat.min_id, Nat.sub_diag. cbn [Nat.mul repeat].
  rewrite app_nil_r, firstn_all2; [auto|].
  red in Hwf. rewrite Hwf, Hshape, !size_of_cons. apply Nat.eq_le_incl. ring.
Qed.

Lemma X2_grid_rearranges_batch_witness :
  exists grid,
    batch_of_images_to_grid six_images (Z.of_nat 2) (Z.of_nat 3) = Ok grid /\
    shape grid = [2 * 2; 3 * 2] /\
    Permutation (data grid) (padded_batch (2 * 3) (2 * 2 * size_of []) 6 (data six_images)) /\
    (6 = 2 * 3 -> Permutation (data grid) (data six_images)).
Proof.
  apply (@X2_grid_rearranges_batch six_images 2 3 6 2 2 []);
    [reflexivity | reflexivity | simpl; lia | lia | lia].
Defined.

Lemma grid_data_single_column (R h w K : nat) (d : list Z) :
  length d = size_of [R; h; 1; w; K] -> grid_data R 1 h w K d = d.
Proof.
  intros Hd. rewrite <- (map_nth_seq d) at 2. rewrite Hd.
  unfold grid_data. apply map_ext_in. intros p Hp%in_seq.
  assert (Hlt : p < size_of [R; h; 1; w; K]) by lia.
  destruct (unravel_grid R 1 h w K Hlt)
    as (r & y & cc & x & k & E & Hr & Hy & Hc & Hx & Hk).
  f_equal. rewrite <- (ravel_unravel [R; h; 1; w; K] Hlt) at 2.
  rewrite E. assert (cc = 0) as -> by lia.
  change (swap_nth 1 2 0 [r; y; 0; x; k]) with [r; 0; y; x; k].
  cbn [ravel]. rewrite !size_of_cons. change (size_of []) with 1. ring.
Qed.

(** X3.  With a single column the tiler stacks the images one below the
    other: the grid holds the elements of the batch in their own order,
    cut to [R] images or followed by zeros. *)
Theorem X3_single_column_stacks (imgs : ndarray) (R b h w : nat) (cs : list nat) :
  wf imgs -> shape imgs = b :: h :: w :: cs -> length cs <= 1 -> 0 < R ->
  batch_of_images_to_grid imgs (Z.of_nat R) 1 =
  Ok (mk_ndarray (R * h :: w :: cs)
        (firstn (Nat.min R b * (h * w * size_of cs)) (data imgs)
         ++ repeat 0%Z ((R - Nat.min R b) * (h * w * size_of cs)))).
Proof.
  intros Hwf Hshape Hcs HR.
  change 1%Z with (Z.of_nat 1).
  rewrite (tiler_closed Hwf Hshape Hcs HR Nat.lt_0_1).
  pose proof (padded_batch_length Hwf Hshape Hcs HR Nat.lt_0_1) as Hlen.
  rewrite grid_data_single_column
    by (rewrite Hlen, !size_of_cons; change (size_of []) with 1; ring).
  unfold padded_batch. rewrite !Nat.mul_1_r, Nat.mul_1_l. reflexivity.
Qed.

Lemma X3_single_column_stacks_witness :
  batch_of_images_to_grid (mk_ndarray [1; 1; 2] [7; 8]%Z) (Z.of_nat 2) 1 =
  Ok (mk_ndarray [2 * 1; 2]
        (firstn (Nat.min 2 1 * (1 * 2 * size_of [])) [7; 8]%Z
         ++ repeat 0%Z ((2 - Nat.min 2 1) * (1 * 2 * size_of [])))).
Proof.
  apply (@X3_single_column_stacks (mk_ndarray [1; 1; 2] [7; 8]%Z) 2 1 1 2 []);
    [reflexivity | reflexivity | simpl; lia | lia].
Defined.

(** ** More on the image encoder *)

Section ReadBack.

Lemma skipn_nth_cons (p : nat) (l : list Z) :
  p < length l -> skipn p l = nth p l 0%Z :: skipn (S p) l.
Proof.
  revert l; induction p as [|p IH]; intros [|v l] Hp; simpl in Hp; try lia.
  - reflexivity.
  - cbn [skipn nth]. rewrite IH by lia. reflexivity.
Qed.

Lemma firstn1_skipn (p : nat) (l : list Z) :
  p < length l -> firstn 1 (skipn p l) = [nth p l 0%Z].
Proof. intros Hp. rewrite skipn_nth_cons by exact Hp. reflexivity. Qed.

Lemma px3_nth (p : nat) (l : list Z) :
  3 * p + 2 < length l ->
  px3 p l = [nth (3 * p) l 0%Z; nth (3 * p + 1) l 0%Z; nth (3 * p + 2) l 0%Z].
Proof.
  intros Hp. unfold px3.
  rewrite skipn_nth_cons by lia.
  rewrite (@skipn_nth_cons (S (3 * p))) by lia.
  rewrite (@skipn_nth_cons (S (S (3 * p)))) by lia.
  replace (3 * p + 1) with (S (3 * p)) by lia.
  replace (3 * p + 2) with (S (S (3 * p))) by lia.
  reflexivity.
Qed.

Lemma fromarray_gray (h w : nat) (d : list Z) :
  length d = h * w ->
  fromarray (mk_ndarray [h; w] d) (Some L) = Ok (mk_image L w h d).
Proof.
  intros Hd. unfold fromarray.
  cbn [shape data skipn typemap bind ndim length bands tuple_get nth_error Nat.eqb].
  replace (2 <? 2) with false by reflexivity.
  replace (length d =? w * h * 1) with true; [reflexivity|].
  symmetry. apply Nat.eqb_eq. lia.
Qed.

Lemma getpixel_gray (h w x y : nat) (d : list Z) :
  length d = h * w -> x < w -> y < h ->
  getpixel (mk_image L w h d) x y = Some [nth (y * w + x) d 0%Z].
Proof.
  intros Hd Hx Hy. unfold getpixel. cbn [mode width height pixels bands].
  apply Nat.ltb_lt in Hx as Hx'. apply Nat.ltb_lt in Hy as Hy'.
  rewrite Hx', Hy'. cbn [andb]. rewrite Nat.mul_1_l.
  rewrite firstn1_skipn by nia. reflexivity.
Qed.

Lemma gray_at (a : ndarray) (h w i j : nat) (v : Z) :
  shape a = [h; w] -> getitem a [i; j] = Some v ->
  i < h /\ j < w /\ nth (i * w + j) (data a) 0%Z = v.
Proof. intros Hshape Hv. exact (@label_at a h w i j v Hshape Hv). Qed.

End ReadBack.

Lemma array2pil_gray (a : ndarray) (h w : nat) :
  wf a -> shape a = [h; w] ->
  exists im,
    array2pil a = Ok im /\
    mode im = L /\ width im = w /\ height im = h /\
    forall y x v, getitem a [y; x] = Some v -> getpixel im x y = Some [v].
Proof.
  intros Hwf Hshape.
  assert (Hlen : length (data a) = h * w) by exact (label_length Hwf Hshape).
  destruct a as [sh d]; cbn [shape data] in *; subst sh.
  exists (mk_image L w h d).
  split; [unfold array2pil, array2pil_branches; cbn [ndim shape length Nat.eqb
            load_local bind]; apply fromarray_gray; exact Hlen|].
  repeat split.
  intros y x v Hv.
  destruct (@gray_at (mk_ndarray [h; w] d) h w y x v eq_refl Hv) as (Hy & Hx & <-).
  apply getpixel_gray; assumption.
Qed.

(** X4.  A 2D array of bytes is encoded as a grayscale image as wide as the array
    has columns and as high as it has rows; reading pixel [(x, y)] back
    gives the element in row [y], column [x]. *)
Theorem X4_array2pil_gray_readback (a : ndarray) (h w : nat) :
  wf a -> shape a = [h; w] -> Forall byte_ok (data a) ->
  exists im,
    array2pil a = Ok im /\
    mode im = L /\ width im = w /\ height im = h /\
    forall y x v, getitem a [y; x] = Some v -> getpixel im x y = Some [v].
Proof.
  intros Hwf Hshape _.
  assert (Hlen : length (data a) = h * w) by exact (label_length Hwf Hshape).
  destruct a as [sh d]; cbn [shape data] in *; subst sh.
  exists (mk_image L w h d). split.
  - unfold array2pil, array2pil_branches.
    cbn [ndim shape length Nat.eqb load_local bind].
    apply fromarray_gray. exact Hlen.
  - repeat split. intros y x v Hv.
    destruct (@gray_at (mk_ndarray [h; w] d) h w y x v eq_refl Hv) as (Hy & Hx & <-).
    apply getpixel_gray; assumption.
Qed.

Lemma X4_array2pil_gray_readback_witness :
  exists im,
    array2pil (mk_ndarray [2; 3] [1; 2; 3; 4; 5; 6]%Z) = Ok im /\
    mode im = L /\ width im = 3 /\ height im = 2 /\
    forall y x v,
      getitem (mk_ndarray [2; 3] [1; 2; 3; 4; 5; 6]%Z) [y; x] = Some v ->
      getpixel im x y = Some [v].
Proof.
  apply (@X4_array2pil_gray_readback (mk_ndarray [2; 3] [1; 2; 3; 4; 5; 6]%Z) 2 3);
    [reflexivity | reflexivity | bytes_ok].
Defined.

(** X5.  A grayscale array of bytes with a channel axis of length one, more than
    one row and more than one column is encoded like the 2D array of the
    same elements, and reading pixel [(x, y)] back gives element
    [(y, x, 0)]. *)
Theorem X5_array2pil_channel_axis_readback (a : ndarray) (h w : nat) :
  wf a -> shape a = [h; w; 1] -> Forall byte_ok (data a) -> h <> 1 -> w <> 1 ->
  exists im,
    array2pil a = Ok im /\
    array2pil (mk_ndarray [h; w] (data a)) = Ok im /\
    mode im = L /\ width im = w /\ height im = h /\
    forall y x v, getitem a [y; x; 0] = Some v -> getpixel im x y = Some [v].
Proof.
  intros Hwf Hshape _ Hh Hw.
  assert (Hlen : length (data a) = h * w)
    by (red in Hwf; rewrite Hwf, Hshape; cbn; lia).
  assert (Hwf2 : wf (mk_ndarray [h; w] (data a)))
    by (red; cbn [shape data]; rewrite Hlen; cbn; lia).
  destruct (array2pil_gray Hwf2 eq_refl)
    as (im & Him & Hm & Hwd & Hht & Hpx).
  exists im. split; [|split; [exact Him|repeat split; try assumption]].
  - rewrite <- Him. unfold array2pil, array2pil_branches, squeeze, ndim.
    rewrite Hshape. cbn [length Nat.eqb nth andb filter shape data].
    apply Nat.eqb_neq in Hh. apply Nat.eqb_neq in Hw.
    rewrite Hh, Hw. reflexivity.
  - intros y x v Hv. apply Hpx.
    unfold getitem in *. rewrite Hshape in Hv. cbn [shape data] in *.
    cbn [in_bounds ravel size_of fold_right] in *.
    destruct (y <? h); [|discriminate]. destruct (x <? w); [|discriminate].
    cbn [andb Nat.ltb Nat.leb] in *.
    replace (y * (w * 1) + (x * 1 + 0)) with (y * w + x) by lia.
    replace (y * (w * (1 * 1)) + (x * (1 * 1) + (0 * 1 + 0))) with (y * w + x)
      in Hv by lia.
    exact Hv.
Qed.

Lemma X5_array2pil_channel_axis_readback_witness :
  exists im,
    array2pil (mk_ndarray [2; 3; 1] [1; 2; 3; 4; 5; 6]%Z) = Ok im /\
    array2pil (mk_ndarray [2; 3] [1; 2; 3; 4; 5; 6]%Z) = Ok im /\
    mode im = L /\ width im = 3 /\ height im = 2 /\
    forall y x v,
      getitem (mk_ndarray [2; 3; 1] [1; 2; 3; 4; 5; 6]%Z) [y; x; 0] = Some v ->
      getpixel im x y = Some [v].
Proof.
  apply (@X5_array2pil_channel_axis_readback
           (mk_ndarray [2; 3; 1] [1; 2; 3; 4; 5; 6]%Z) 2 3);
    [reflexivity | reflexivity | bytes_ok | lia | lia].
Defined.

(** X6.  The squeeze of [array2pil] has no axis argument: when a
    grayscale array of bytes with a channel axis has a single row or a
    single column, that axis goes as well and the encoder is called on an
    array of rank below 2.  A single row of [w] elements, [w] other than
    1, comes out as an image one pixel wide and [w] high, the row as a
    column; a single column of [h] elements, [h] other than 1, as the
    image one wide and [h] high; a single element raises [IndexError]. *)
Theorem X6_array2pil_squeeze_drops_image_axis (a : ndarray) (h w : nat) :
  wf a -> shape a = [h; w; 1] -> Forall byte_ok (data a) -> h = 1 \/ w = 1 ->
  (w <> 1 ->
   exists im,
     array2pil a = Ok im /\
     mode im = L /\ width im = 1 /\ height im = w /\
     forall x v, getitem a [0; x; 0] = Some v -> getpixel im 0 x = Some [v]) /\
  (h <> 1 ->
   exists im,
     array2pil a = Ok im /\
     mode im = L /\ width im = 1 /\ height im = h /\
     forall y v, getitem a [y; 0; 0] = Some v -> getpixel im 0 y = Some [v]) /\
  (h = 1 -> w = 1 -> array2pil a = Err IndexError).
Proof.
  intros Hwf Hshape _ Hone.
  assert (Hlen : length (data a) = h * w)
    by (red in Hwf; rewrite Hwf, Hshape; cbn; lia).
  assert (Hrun : forall n, n <> 1 ->
            filter (fun d => negb (d =? 1)) [h; w; 1] = [n] ->
            length (data a) = n ->
            array2pil a = Ok (mk_image L 1 n (data a))).
  { intros n Hn Hsq Hd.
    unfold array2pil, array2pil_branches, squeeze, ndim.
    rewrite Hshape. cbn [length Nat.eqb nth andb load_local bind].
    rewrite Hsq. unfold fromarray.
    cbn [shape data skipn typemap bind ndim length bands tuple_get nth_error
         Nat.eqb Nat.ltb Nat.leb].
    replace (length (data a) =? 1 * n * 1) with true; [reflexivity|].
    symmetry. apply Nat.eqb_eq. lia. }
  assert (Hat : forall y x v, getitem a [y; x; 0] = Some v ->
            y < h /\ x < w /\ nth (y * w + x) (data a) 0%Z = v).
  { intros y x v Hv.
    apply (@gray_at (mk_ndarray [h; w] (data a)) h w y x v eq_refl).
    unfold getitem in *. rewrite Hshape in Hv. cbn [shape data] in *.
    cbn [in_bounds ravel size_of fold_right] in *.
    destruct (y <? h); [|discriminate]. destruct (x <? w); [|discriminate].
    cbn [andb Nat.ltb Nat.leb] in *.
    replace (y * (w * 1) + (x * 1 + 0)) with (y * w + x) by lia.
    replace (y * (w * (1 * 1)) + (x * (1 * 1) + (0 * 1 + 0))) with (y * w + x)
      in Hv by lia.
    exact Hv. }
  split; [|split].
  - intros Hw. destruct Hone as [-> | ->]; [|contradiction].
    exists (mk_image L 1 w (data a)). split.
    + apply Hrun; [exact Hw | | lia].
      cbn [filter Nat.eqb negb]. apply Nat.eqb_neq in Hw. rewrite Hw. reflexivity.
    + repeat split. intros x v Hv.
      destruct (Hat 0 x v Hv) as (_ & Hx & <-).
      rewrite (@getpixel_gray w 1 0 x (data a)) by lia.
      rewrite Nat.mul_1_r, Nat.add_0_r. reflexivity.
  - intros Hh. destruct Hone as [-> | ->]; [contradiction|].
    exists (mk_image L 1 h (data a)). split.
    + apply Hrun; [exact Hh | | lia].
      cbn [filter Nat.eqb negb]. apply Nat.eqb_neq in Hh. rewrite Hh. reflexivity.
    + repeat split. intros y v Hv.
      destruct (Hat y 0 v Hv) as (Hy & _ & <-).
      rewrite (@getpixel_gray h 1 0 y (data a)) by lia.
      reflexivity.
  - intros -> ->.
    unfold array2pil, array2pil_branches, squeeze, ndim.
    rewrite Hshape. reflexivity.
Qed.

Lemma X6_array2pil_squeeze_drops_image_axis_witness :
  (3 <> 1 ->
   exists im,
     array2pil (mk_ndarray [1; 3; 1] [7; 8; 9]%Z) = Ok im /\
     mode im = L /\ width im = 1 /\ height im = 3 /\
     forall x v,
       getitem (mk_ndarray [1; 3; 1] [7; 8; 9]%Z) [0; x; 0] = Some v ->
       getpixel im 0 x = Some [v]) /\
  (1 <> 1 ->
   exists im,
     array2pil (mk_ndarray [1; 3; 1] [7; 8; 9]%Z) = Ok im /\
     mode im = L /\ width im = 1 /\ height im = 1 /\
     forall y v,
       getitem (mk_ndarray [1; 3; 1] [7; 8; 9]%Z) [y; 0; 0] = Some v ->
       getpixel im 0 y = Some [v]) /\
  (1 = 1 -> 3 = 1 -> array2pil (mk_ndarray [1; 3; 1] [7; 8; 9]%Z) = Err IndexError).
Proof.
  apply (@X6_array2pil_squeeze_drops_image_axis (mk_ndarray [1; 3; 1] [7; 8; 9]%Z) 1 3);
    [reflexivity | reflexivity | bytes_ok | left; reflexivity].
Defined.

Example single_row_is_column :
  array2pil (mk_ndarray [1; 3; 1] [7; 8; 9]%Z) = Ok (mk_image L 1 3 [7; 8; 9]%Z).
Proof. reflexivity. Qed.

(** X7.  An array of bytes with three channels is encoded as an RGB image of the
    array's width and height, and pixel [(x, y)] read back is the three
    channel values at row [y], column [x]. *)
Theorem X7_array2pil_rgb_readback (a : ndarray) (h w : nat) :
  wf a -> shape a = [h; w; 3] -> Forall byte_ok (data a) ->
  exists im,
    array2pil a = Ok im /\
    mode im = RGB /\ width im = w /\ height im = h /\
    forall y x r g b,
      getitem a [y; x; 0] = Some r -> getitem a [y; x; 1] = Some g ->
      getitem a [y; x; 2] = Some b ->
      getpixel im x y = Some [r; g; b].
Proof.
  intros Hwf Hshape _.
  assert (Hlen : length (data a) = 3 * (h * w))
    by (red in Hwf; rewrite Hwf, Hshape; cbn; lia).
  destruct a as [sh d]; cbn [shape data] in *; subst sh.
  exists (mk_image RGB w h d). split.
  - unfold array2pil, array2pil_branches.
    cbn [ndim shape length Nat.eqb nth andb load_local bind].
    unfold fromarray.
    cbn [shape data skipn typemap bind ndim length bands tuple_get nth_error Nat.eqb].
    replace (3 <? 3) with false by reflexivity.
    replace (length d =? w * h * 3) with true; [reflexivity|].
    symmetry. apply Nat.eqb_eq. lia.
  - repeat split. intros y x r g b Hr Hg Hb.
    unfold getitem in Hr, Hg, Hb. cbn [shape data in_bounds ravel] in Hr, Hg, Hb.
    destruct (y <? h) eqn:Ey; [|discriminate].
    destruct (x <? w) eqn:Ex; [|discriminate].
    apply Nat.ltb_lt in Ey as Hy. apply Nat.ltb_lt in Ex as Hx.
    cbn [andb Nat.ltb Nat.leb] in Hr, Hg, Hb.
    rewrite !size_of_cons in Hr, Hg, Hb. change (size_of []) with 1 in Hr, Hg, Hb.
    replace (y * (w * (3 * 1)) + (x * (3 * 1) + (0 * 1 + 0)))
      with (3 * (y * w + x)) in Hr by ring.
    replace (y * (w * (3 * 1)) + (x * (3 * 1) + (1 * 1 + 0)))
      with (3 * (y * w + x) + 1) in Hg by ring.
    replace (y * (w * (3 * 1)) + (x * (3 * 1) + (2 * 1 + 0)))
      with (3 * (y * w + x) + 2) in Hb by ring.
    apply nth_error_nth with (d := 0%Z) in Hr.
    apply nth_error_nth with (d := 0%Z) in Hg.
    apply nth_error_nth with (d := 0%Z) in Hb.
    unfold getpixel. cbn [mode width height pixels bands].
    rewrite Ex, Ey. cbn [andb]. f_equal.
    change (firstn 3 (skipn (3 * (y * w + x)) d)) with (px3 (y * w + x) d).
    rewrite px3_nth by nia.
    rewrite Hr, Hg, Hb. reflexivity.
Qed.

Lemma X7_array2pil_rgb_readback_witness :
  exists im,
    array2pil (mk_ndarray [1; 2; 3] [1; 2; 3; 4; 5; 6]%Z) = Ok im /\
    mode im = RGB /\ width im = 2 /\ height im = 1 /\
    forall y x r g b,
      getitem (mk_ndarray [1; 2; 3] [1; 2; 3; 4; 5; 6]%Z) [y; x; 0] = Some r ->
      getitem (mk_ndarray [1; 2; 3] [1; 2; 3; 4; 5; 6]%Z) [y; x; 1] = Some g ->
      getitem (mk_ndarray [1; 2; 3] [1; 2; 3; 4; 5; 6]%Z) [y; x; 2] = Some b ->
      getpixel im x y = Some [r; g; b].
Proof.
  apply (@X7_array2pil_rgb_readback (mk_ndarray [1; 2; 3] [1; 2; 3; 4; 5; 6]%Z) 1 2);
    [reflexivity | reflexivity | bytes_ok].
Defined.

(** ** More on the label colorizer *)

(** X8.  A label array of rank 0 or 1 has no [shape[1]]: the colorizer
    raises [IndexError] before it looks at a label or at the colormap. *)
Theorem X8_colorizer_needs_two_axes (label : ndarray) (colormap : option (list rgb)) :
  ndim label < 2 -> viz_segmentation_label label colormap = Err IndexError.
Proof.
  unfold ndim, viz_segmentation_label. intros Hrank.
  destruct (shape label) as [|h [|w rest]]; cbn in Hrank; try lia; reflexivity.
Qed.

Lemma X8_colorizer_needs_two_axes_witness :
  viz_segmentation_label (mk_ndarray [3] [0; 1; 2]%Z) None = Err IndexError.
Proof.
  apply (@X8_colorizer_needs_two_axes (mk_ndarray [3] [0; 1; 2]%Z) None).
  vm_compute. lia.
Defined.

Lemma for_each_ext {A S : Type} (xs : list A) (f g : S -> A -> result S) (s : S) :
  (forall s' x, In x xs -> f s' x = g s' x) ->
  for_each xs f s = for_each xs g s.
Proof.
  revert s; induction xs as [|x xs IH]; intros s Hfg; [reflexivity|].
  cbn [for_each]. rewrite (Hfg s x) by (left; reflexivity).
  destruct (g s x) as [s'|e]; cbn [bind]; [|reflexivity].
  apply IH. intros s'' y Hy. apply Hfg. right. exact Hy.
Qed.

(** X9.  The colorizer reads the colormap at the labels that occur and
    nowhere else: two colormaps that give the same answer at every label of
    the array give the same result, image or error. *)
Theorem X9_colorizer_reads_used_entries (label : ndarray) (cm1 cm2 : list rgb) :
  (forall v, In v (data label) -> list_getitem cm1 v = list_getitem cm2 v) ->
  viz_segmentation_label label (Some cm1) = viz_segmentation_label label (Some cm2).
Proof.
  intros Hsame. unfold viz_segmentation_label.
  destruct (tuple_get (shape label) 0) as [h|]; cbn [bind]; [|reflexivity].
  destruct (tuple_get (shape label) 1) as [w|]; cbn [bind]; [|reflexivity].
  rewrite (@for_each_ext _ _ (unique label)
             (fun viz uid => c <- list_getitem cm1 uid ;; setitem_mask viz label uid c)
             (fun viz uid => c <- list_getitem cm2 uid ;; setitem_mask viz label uid c));
    [reflexivity|].
  intros viz uid Huid. rewrite (Hsame uid) by (apply unique_In; exact Huid).
  reflexivity.
Qed.

Lemma X9_colorizer_reads_used_entries_witness :
  viz_segmentation_label (mk_ndarray [1; 2] [0; 1]%Z)
    (Some [(0, 0, 0); (255, 79, 64); (1, 2, 3)]%Z)
  = viz_segmentation_label (mk_ndarray [1; 2] [0; 1]%Z)
      (Some [(0, 0, 0); (255, 79, 64); (9, 9, 9)]%Z).
Proof.
  apply (@X9_colorizer_reads_used_entries (mk_ndarray [1; 2] [0; 1]%Z)
           [(0, 0, 0); (255, 79, 64); (1, 2, 3)]%Z
           [(0, 0, 0); (255, 79, 64); (9, 9, 9)]%Z).
  simpl. intros v [<- | [<- | []]]; reflexivity.
Defined.

(** ** More on the overlay compositor *)

Section OverlaySteps.

Variables (img label : ndarray) (colormap : option (list rgb)) (alpha : Q).

Lemma overlay_runs (base lab : image) :
  array2pil img = Ok base ->
  viz_segmentation_label label (Some (colormap_or overlay_colormap colormap)) = Ok lab ->
  viz_overlayed_segmentation_label img label colormap alpha
  = blend (convert_RGB base) lab alpha.
Proof.
  intros Hbase Hlab. unfold viz_overlayed_segmentation_label.
  rewrite Hbase. cbn [bind].
  change (match colormap with Some c => c | None => overlay_colormap end)
    with (colormap_or overlay_colormap colormap).
  rewrite Hlab. reflexivity.
Qed.

Lemma overlay_label_error (base : image) (e : exn) :
  array2pil img = Ok base ->
  viz_segmentation_label label (Some (colormap_or overlay_colormap colormap)) = Err e ->
  viz_overlayed_segmentation_label img label colormap alpha = Err e.
Proof.
  intros Hbase Hlab. unfold viz_overlayed_segmentation_label.
  rewrite Hbase. cbn [bind].
  change (match colormap with Some c => c | None => overlay_colormap end)
    with (colormap_or overlay_colormap colormap).
  rewrite Hlab. reflexivity.
Qed.

End OverlaySteps.

(** The colorizer on labels that index the colormap. *)
Lemma colorize_in_range (label : ndarray) (cm : list rgb) (h w : nat) :
  wf label -> shape label = [h; w] ->
  (forall v, In v (data label) -> index_ok (Z.of_nat (length cm)) v) ->
  exists lab,
    viz_segmentation_label label (Some cm) = Ok lab /\
    mode lab = RGB /\ width lab = w /\ height lab = h /\
    length (pixels lab) = 3 * (h * w) /\
    forall y x, y < h -> x < w ->
      getpixel lab x y = Some (stored_colour cm (nth (y * w + x) (data label) 0%Z)).
Proof.
  intros Hwf Hshape Hrange.
  pose proof (colorize_spec (Some cm) Hwf Hshape) as Hspec.
  cbn [colormap_or] in Hspec.
  destruct (viz_segmentation_label label (Some cm)) as [lab|e].
  - exists lab. split; [reflexivity|]. tauto.
  - exfalso. destruct Hspec as [_ Hex].
    apply Exists_exists in Hex as (v & Hv & Hbad). exact (Hbad (Hrange v Hv)).
Qed.

(** X10.  A base image and a label array of different height or width do
    not blend: with labels that index a colormap of byte triples the
    compositor raises [ValueError], whatever [alpha] is, also for [alpha] 0
    and 1. *)
Theorem X10_overlay_size_mismatch (img label : ndarray) (colormap : option (list rgb))
    (alpha : Q) (base : image) (h w : nat) :
  array2pil img = Ok base ->
  wf label -> shape label = [h; w] ->
  valid_colormap (colormap_or overlay_colormap colormap) ->
  (forall v, In v (data label) ->
     index_ok (Z.of_nat (length (colormap_or overlay_colormap colormap))) v) ->
  height base <> h \/ width base <> w ->
  viz_overlayed_segmentation_label img label colormap alpha = Err ValueError.
Proof.
  intros Hbase Hwf Hshape _ Hrange Hsize.
  destruct (@colorize_in_range label (colormap_or overlay_colormap colormap) h w
              Hwf Hshape Hrange)
    as (lab & Hlab & Hm & Hlw & Hlh & _).
  rewrite (@overlay_runs img label colormap alpha base lab Hbase Hlab).
  unfold blend. cbn [convert_RGB mode width height].
  rewrite Hm, Hlw, Hlh.
  destruct Hsize as [H | H]; apply Nat.eqb_neq in H; rewrite H;
    rewrite ?andb_false_r; reflexivity.
Qed.

Lemma X10_overlay_size_mismatch_witness :
  viz_overlayed_segmentation_label (mk_ndarray [1; 2] [0; 0]%Z)
    (mk_ndarray [1; 1] [1%Z]) None 0 = Err ValueError.
Proof.
  apply (@X10_overlay_size_mismatch (mk_ndarray [1; 2] [0; 0]%Z)
           (mk_ndarray [1; 1] [1%Z]) None 0 (mk_image L 2 1 [0; 0]%Z) 1 1);
    [reflexivity | reflexivity | reflexivity | exact overlay_colormap_valid
     | | right; simpl; lia].
  simpl. intros v [<- | []]. unfold index_ok. lia.
Defined.

(** X11.  The base image is encoded first: a base array of a rank other
    than 2 and 3 makes the compositor raise [UnboundLocalError], whatever
    the label array, the colormap and [alpha] are. *)
Theorem X11_overlay_bad_base_first (img label : ndarray)
    (colormap : option (list rgb)) (alpha : Q) :
  ndim img <> 2 -> ndim img <> 3 ->
  viz_overlayed_segmentation_label img label colormap alpha = Err UnboundLocalError.
Proof.
  intros H2 H3. unfold viz_overlayed_segmentation_label, array2pil, array2pil_branches.
  apply Nat.eqb_neq in H2. apply Nat.eqb_neq in H3.
  rewrite H2, H3. reflexivity.
Qed.

Lemma X11_overlay_bad_base_first_witness :
  viz_overlayed_segmentation_label (mk_ndarray [4] [1; 2; 3; 4]%Z)
    (mk_ndarray [1; 1] [9%Z]) None (1 # 2) = Err UnboundLocalError.
Proof.
  apply (@X11_overlay_bad_base_first (mk_ndarray [4] [1; 2; 3; 4]%Z)
           (mk_ndarray [1; 1] [9%Z]) None (1 # 2));
    vm_compute; lia.
Defined.

(** X12.  The label is colorized before the images are compared: with a
    base image the encoder accepts and a colormap of byte triples, a 2D
    label array holding a value that does not index the colormap makes the
    compositor raise [IndexError], of whatever size the two are and
    whatever [alpha] is. *)
Theorem X12_overlay_label_out_of_range (img label : ndarray)
    (colormap : option (list rgb)) (alpha : Q) (base : image) (h w : nat) (v : Z) :
  array2pil img = Ok base ->
  wf label -> shape label = [h; w] ->
  valid_colormap (colormap_or overlay_colormap colormap) ->
  In v (data label) ->
  ~ index_ok (Z.of_nat (length (colormap_or overlay_colormap colormap))) v ->
  viz_overlayed_segmentation_label img label colormap alpha = Err IndexError.
Proof.
  intros Hbase Hwf Hshape _ Hv Hbad.
  apply (@overlay_label_error img label colormap alpha base IndexError Hbase).
  pose proof (colorize_spec (Some (colormap_or overlay_colormap colormap))
                Hwf Hshape) as Hspec.
  cbn [colormap_or] in Hspec.
  destruct (viz_segmentation_label label _) as [lab|e].
  - exfalso. destruct Hspec as [Hall _]. rewrite Forall_forall in Hall.
    exact (Hbad (Hall v Hv)).
  - destruct Hspec as [-> _]. reflexivity.
Qed.

Lemma X12_overlay_label_out_of_range_witness :
  viz_overlayed_segmentation_label (mk_ndarray [1; 2] [0; 0]%Z)
    (mk_ndarray [1; 1] [4%Z]) None (1 # 2) = Err IndexError.
Proof.
  apply (@X12_overlay_label_out_of_range (mk_ndarray [1; 2] [0; 0]%Z)
           (mk_ndarray [1; 1] [4%Z]) None (1 # 2) (mk_image L 2 1 [0; 0]%Z) 1 1 4%Z);
    [reflexivity | reflexivity | reflexivity | exact overlay_colormap_valid
     | left; reflexivity |].
  unfold index_ok. simpl. lia.
Defined.

Section OverlayBytes.

Lemma px3_triple (p : nat) (d : list Z) :
  p < length d ->
  px3 p (flat_map (fun v => [v; v; v]) d)
  = [nth p d 0%Z; nth p d 0%Z; nth p d 0%Z].
Proof.
  revert d; induction p as [|p IH]; intros [|v d] Hp; simpl in Hp; try lia.
  - reflexivity.
  - cbn [flat_map app nth]. rewrite px3_step. apply IH. lia.
Qed.



End OverlayBytes.

(** X13.  With [alpha = 0] over a 2D (grayscale) base array of bytes of the size
    of the label array, whose labels index a colormap of byte triples, the
    compositor returns the base as an RGB image: pixel [(x, y)] is the base
    element at row [y], column [x], three times. *)
Theorem X13_overlay_gray_base_alpha0 (img label : ndarray)
    (colormap : option (list rgb)) (alpha : Q) (h w : nat) :
  wf img -> shape img = [h; w] -> Forall byte_ok (data img) ->
  wf label -> shape label = [h; w] ->
  valid_colormap (colormap_or overlay_colormap colormap) ->
  (forall v, In v (data label) ->
     index_ok (Z.of_nat (length (colormap_or overlay_colormap colormap))) v) ->
  (alpha == 0)%Q ->
  exists out,
    viz_overlayed_segmentation_label img label colormap alpha = Ok out /\
    mode out = RGB /\ width out = w /\ height out = h /\
    forall y x v, getitem img [y; x] = Some v -> getpixel out x y = Some [v; v; v].
Proof.
  intros Hwf Hshape _ Hlwf Hlshape _ Hrange Halpha.
  assert (Hlen : length (data img) = h * w) by exact (label_length Hwf Hshape).
  destruct (@colorize_in_range label (colormap_or overlay_colormap colormap) h w
              Hlwf Hlshape Hrange) as (lab & Hlab & Hm & Hlw & Hlh & _).
  assert (Hbase : array2pil img = Ok (mk_image L w h (data img))).
  { destruct img as [sh d]; cbn [shape data] in *; subst sh.
    unfold array2pil, array2pil_branches.
    cbn [ndim shape length Nat.eqb load_local bind].
    apply fromarray_gray. exact Hlen. }
  exists (convert_RGB (mk_image L w h (data img))). split.
  - rewrite (@overlay_runs img label colormap alpha _ lab Hbase Hlab).
    rewrite blend_same_size by (cbn [convert_RGB mode width height]; congruence).
    rewrite (of_Q_zero Halpha). reflexivity.
  - unfold convert_RGB. cbn [mode width height pixels]. repeat split.
    intros y x v Hv.
    destruct (@gray_at img h w y x v Hshape Hv) as (Hy & Hx & <-).
    unfold getpixel. cbn [mode width height pixels bands].
    apply Nat.ltb_lt in Hx as Hx'. apply Nat.ltb_lt in Hy as Hy'.
    rewrite Hx', Hy'. cbn [andb]. f_equal.
    apply px3_triple. rewrite Hlen. nia.
Qed.

Lemma X13_overlay_gray_base_alpha0_witness :
  exists out,
    viz_overlayed_segmentation_label (mk_ndarray [1; 2] [10; 20]%Z)
      (mk_ndarray [1; 2] [0; 1]%Z) None 0 = Ok out /\
    mode out = RGB /\ width out = 2 /\ height out = 1 /\
    forall y x v,
      getitem (mk_ndarray [1; 2] [10; 20]%Z) [y; x] = Some v ->
      getpixel out x y = Some [v; v; v].
Proof.
  apply (@X13_overlay_gray_base_alpha0 (mk_ndarray [1; 2] [10; 20]%Z)
           (mk_ndarray [1; 2] [0; 1]%Z) None 0 1 2);
    [reflexivity | reflexivity | bytes_ok | reflexivity | reflexivity
     | exact overlay_colormap_valid | | reflexivity].
  simpl. intros v [<- | [<- | []]]; unfold index_ok; lia.
Defined.



(** X15.  With [alpha = 1] the pixel at a label [k] is entry [k] of the
    colormap in use; with no colormap given that is the compositor's own
    table, whose entry 0 is the gray [(127, 127, 127)]. *)
Theorem X15_overlay_alpha1_colours (img label : ndarray)
    (colormap : option (list rgb)) (alpha : Q) (base : image) (h w : nat) :
  array2pil img = Ok base -> height base = h -> width base = w ->
  wf label -> shape label = [h; w] ->
  valid_colormap (colormap_or overlay_colormap colormap) ->
  (forall v, In v (data label) ->
     (0 <= v < Z.of_nat (length (colormap_or overlay_colormap colormap)))%Z) ->
  (alpha == 1)%Q ->
  exists out,
    viz_overlayed_segmentation_label img label colormap alpha = Ok out /\
    forall y x k r g b,
      getitem label [y; x] = Some k ->
      nth_error (colormap_or overlay_colormap colormap) (Z.to_nat k) = Some (r, g, b) ->
      getpixel out x y = Some [r; g; b].
Proof.
  intros Hbase Hh Hw Hwf Hshape Hvalid Hrange Halpha.
  assert (Hrange' : forall v, In v (data label) ->
            index_ok (Z.of_nat (length (colormap_or overlay_colormap colormap))) v).
  { intros v Hv. specialize (Hrange v Hv). unfold index_ok. lia. }
  destruct (@colorize_in_range label (colormap_or overlay_colormap colormap) h w
              Hwf Hshape Hrange') as (lab & Hlab & Hm & Hlw & Hlh & _ & Hpx).
  exists lab. split.
  - rewrite (@overlay_runs img label colormap alpha base lab Hbase Hlab).
    rewrite blend_same_size by (cbn [convert_RGB mode width height]; congruence).
    rewrite (of_Q_one Halpha). reflexivity.
  - intros y x k r g b Hk Hnth.
    destruct (@label_at label h w y x k Hshape Hk) as (Hy & Hx & Hval).
    rewrite (Hpx y x Hy Hx), Hval. f_equal.
    apply stored_colour_at; try assumption.
    apply Hrange. rewrite <- Hval. apply nth_In.
    rewrite (label_length Hwf Hshape). nia.
Qed.

Lemma X15_overlay_alpha1_colours_witness :
  exists out,
    viz_overlayed_segmentation_label (mk_ndarray [1; 2] [10; 20]%Z)
      (mk_ndarray [1; 2] [0; 1]%Z) None 1 = Ok out /\
    forall y x k r g b,
      getitem (mk_ndarray [1; 2] [0; 1]%Z) [y; x] = Some k ->
      nth_error overlay_colormap (Z.to_nat k) = Some (r, g, b) ->
      getpixel out x y = Some [r; g; b].
Proof.
  apply (@X15_overlay_alpha1_colours (mk_ndarray [1; 2] [10; 20]%Z)
           (mk_ndarray [1; 2] [0; 1]%Z) None 1 (mk_image L 2 1 [10; 20]%Z) 1 2);
    [reflexivity | reflexivity | reflexivity | reflexivity | reflexivity
     | exact overlay_colormap_valid | | reflexivity].
  simpl. intros v [<- | [<- | []]]; lia.
Defined.

Example label_of_three_axes :
  viz_segmentation_label (mk_ndarray [1; 1; 3] [0; 0; 1]%Z) None = Err ValueError.
Proof. reflexivity. Qed.

Example overlay_label0_is_gray :
  viz_overlayed_segmentation_label (mk_ndarray [1; 1] [10%Z])
    (mk_ndarray [1; 1] [0%Z]) None 1
  = Ok (mk_image RGB 1 1 [127; 127; 127]%Z).
Proof. vm_compute. reflexivity. Qed.

(** ** The template viewer *)

(** X16.  For a 2D mask of bytes [show_template_image] shows a grayscale
    image of the size of the mask whose pixel [(x, y)] is the mask element
    at row [y], column [x], times 255 modulo 256: 0 stays 0 (black) and 1
    becomes 255 (white). *)
Theorem X16_template_image_pixels (a : ndarray) (h w : nat) :
  wf a -> shape a = [h; w] -> Forall byte_ok (data a) ->
  exists im,
    show_template_image a = Ok im /\
    mode im = L /\ width im = w /\ height im = h /\
    forall y x v,
      getitem a [y; x] = Some v ->
      getpixel im x y = Some [(v * 255) mod 256]%Z /\
      (v = 0%Z -> getpixel im x y = Some [0%Z]) /\
      (v = 1%Z -> getpixel im x y = Some [255%Z]).
Proof.
  intros Hwf Hshape _.
  assert (Hlen : length (data a) = h * w) by exact (label_length Hwf Hshape).
  set (d' := map (fun v => uint8 (v * 255)) (data a)).
  assert (Hlen' : length d' = h * w) by (subst d'; rewrite length_map; exact Hlen).
  exists (mk_image L w h d'). split.
  - unfold show_template_image, mul_uint8. rewrite Hshape.
    apply fromarray_gray. exact Hlen'.
  - repeat split; intros;
      destruct (@gray_at a h w y x v Hshape H) as (Hy & Hx & Hval);
      rewrite (@getpixel_gray h w x y d' Hlen' Hx Hy); subst d';
      change 0%Z with ((fun v => uint8 (v * 255)) 0%Z) at 1;
      rewrite map_nth, Hval; subst; reflexivity.
Qed.

Lemma X16_template_image_pixels_witness :
  exists im,
    show_template_image (mk_ndarray [1; 2] [0; 1]%Z) = Ok im /\
    mode im = L /\ width im = 2 /\ height im = 1 /\
    forall y x v,
      getitem (mk_ndarray [1; 2] [0; 1]%Z) [y; x] = Some v ->
      getpixel im x y = Some [(v * 255) mod 256]%Z /\
      (v = 0%Z -> getpixel im x y = Some [0%Z]) /\
      (v = 1%Z -> getpixel im x y = Some [255%Z]).
Proof.
  apply (@X16_template_image_pixels (mk_ndarray [1; 2] [0; 1]%Z) 1 2);
    [reflexivity | reflexivity | bytes_ok].
Defined.

(** X17.  [show_template_image] always encodes in mode L, which takes two
    axes at most, and the encoder looks the axes after the second up
    first: a mask of rank 3 or more raises [ValueError] when it has three
    axes and the last has length 2, 3 or 4, and [TypeError] otherwise.  So
    a mask with a channel axis of length one, which [array2pil] would
    accept, raises [TypeError]. *)
Theorem X17_template_image_rank (a : ndarray) :
  2 < ndim a ->
  show_template_image a
  = Err (match skipn 2 (shape a) with
         | [2] | [3] | [4] => ValueError
         | _ => TypeError
         end)
  /\ (forall h w, shape a = [h; w; 1] -> show_template_image a = Err TypeError).
Proof.
  intros Hrank.
  assert (Hmain : show_template_image a
                  = Err (match skipn 2 (shape a) with
                         | [2] | [3] | [4] => ValueError
                         | _ => TypeError
                         end)).
  { unfold show_template_image, fromarray, mul_uint8, ndim in *.
    cbn [shape data].
    destruct (shape a) as [|h [|w [|c tl]]]; cbn [length] in Hrank; try lia.
    cbn [skipn].
    destruct tl as [|c' tl]; [|destruct c as [|[|[|[|[|c]]]]]; reflexivity].
    destruct c as [|[|[|[|[|c]]]]]; reflexivity. }
  split; [exact Hmain|].
  intros h w Hshape. rewrite Hmain, Hshape. reflexivity.
Qed.

Lemma X17_template_image_rank_witness :
  show_template_image (mk_ndarray [1; 2; 1] [0; 1]%Z)
  = Err (match skipn 2 [1; 2; 1] with
         | [2] | [3] | [4] => ValueError
         | _ => TypeError
         end)
  /\ (forall h w, [1; 2; 1] = [h; w; 1] ->
      show_template_image (mk_ndarray [1; 2; 1] [0; 1]%Z) = Err TypeError).
Proof.
  apply (@X17_template_image_rank (mk_ndarray [1; 2; 1] [0; 1]%Z)).
  vm_compute. lia.
Defined.

Example template_image_three_channels :
  show_template_image (mk_ndarray [1; 1; 3] [0; 1; 0]%Z) = Err ValueError.
Proof. reflexivity. Qed.

(** ** The implicit channel of the tiler *)

(** X18.  A batch without a channel axis is tiled like the same batch
    with a channel axis of length one: the two grids hold the same elements
    in the same order and differ by that axis only. *)
Theorem X18_tiler_implicit_channel (b h w R C : nat) (d : list Z) :
  length d = b * (h * w) -> 0 < R -> 0 < C ->
  exists g,
    batch_of_images_to_grid (mk_ndarray [b; h; w] d) (Z.of_nat R) (Z.of_nat C)
    = Ok (mk_ndarray [R * h; C * w] g) /\
    batch_of_images_to_grid (mk_ndarray [b; h; w; 1] d) (Z.of_nat R) (Z.of_nat C)
    = Ok (mk_ndarray [R * h; C * w; 1] g).
Proof.
  intros Hd HR HC.
  assert (Hwf3 : wf (mk_ndarray [b; h; w] d))
    by (red; cbn [shape data]; rewrite Hd; cbn; lia).
  assert (Hwf4 : wf (mk_ndarray [b; h; w; 1] d))
    by (red; cbn [shape data]; rewrite Hd; cbn; lia).
  eexists. split.
  - apply (@tiler_closed (mk_ndarray [b; h; w] d) R C b h w [] Hwf3 eq_refl);
      [cbn; lia | exact HR | exact HC].
  - rewrite (@tiler_closed (mk_ndarray [b; h; w; 1] d) R C b h w [1] Hwf4 eq_refl)
      by (assumption || (cbn; lia)).
    reflexivity.
Qed.

Lemma X18_tiler_implicit_channel_witness :
  exists g,
    batch_of_images_to_grid (mk_ndarray [2; 1; 2] [1; 2; 3; 4]%Z)
      (Z.of_nat 1) (Z.of_nat 2) = Ok (mk_ndarray [1 * 1; 2 * 2] g) /\
    batch_of_images_to_grid (mk_ndarray [2; 1; 2; 1] [1; 2; 3; 4]%Z)
      (Z.of_nat 1) (Z.of_nat 2) = Ok (mk_ndarray [1 * 1; 2 * 2; 1] g).
Proof.
  apply (@X18_tiler_implicit_channel 2 1 2 1 2 [1; 2; 3; 4]%Z);
    [reflexivity | lia | lia].
Defined.
